(** * HumanKlu artifact pipeline (HKP v1.1): scoring and certification engine

    A shallow embedding of [humanklu/scripts/pipeline.py].

    Numbers.  The pipeline computes with Python floats.  A finite float is
    a rational number and Python compares floats by value, so scores,
    ratios and thresholds are modelled as rationals ([Q]), with the
    arithmetic ([sum], [/], [round]) exact.  NaN and the infinities are
    outside the model (the rubric's scores range over 0..10).

    Objects.  The claims of the input record are Python dicts, which the
    run reads through [get] and, in one place, writes; they live in a
    heap of dicts and lists, and the functions that allocate or write are
    programs of a state and exception monad.  The functions that only
    read take the heap and the claim dicts as arguments.  The dimension
    set is a record: its five keys are fixed.

    Strings are sequences of bytes; [lower] and [strip] act on ASCII.

    What the run takes from outside is a parameter: the identifiers drawn
    from the clock and the random generator, the content of the ledger
    file, and the parser and serialiser of the [json] module. *)

From Stdlib Require Import QArith Qround Qminmax Qabs Lqa ZArith Lia Ascii.
From stdpp Require Import gmap strings list pretty.

Open Scope Q_scope.

(** ** Python builtins used by the pipeline *)

Module Py.

(** Comparisons of two floats. *)
Definition lt (a b : Q) : bool := negb (Qle_bool b a).
Definition gt (a b : Q) : bool := negb (Qle_bool a b).
Definition le (a b : Q) : bool := Qle_bool a b.
Definition ge (a b : Q) : bool := Qle_bool b a.

(** [min(a, b)]: the first argument unless the second is smaller. *)
Definition min (a b : Q) : Q := if lt b a then b else a.

(** Nearest integer, ties to the even one. *)
Definition round_half_even (x : Q) : Z :=
  let f := Qfloor x in
  match Qcompare (x - inject_Z f) (1 # 2) with
  | Lt => f
  | Gt => (f + 1)%Z
  | Eq => if Z.even f then f else (f + 1)%Z
  end.

Definition pow10 (ndigits : nat) : Z := (10 ^ Z.of_nat ndigits)%Z.

(** [round(x, ndigits)] *)
Definition round (x : Q) (ndigits : nat) : Q :=
  inject_Z (round_half_even (x * inject_Z (pow10 ndigits)))
  / inject_Z (pow10 ndigits).

(** [sum(xs)]: left to right, from 0. *)
Definition sum (xs : list Q) : Q := fold_left Qplus xs 0.

(** [len(xs)] as a number. *)
Definition len {A} (xs : list A) : Q := inject_Z (Z.of_nat (length xs)).

(** [bool(xs)] for a list: non-empty. *)
Definition truthy_list {A} (xs : list A) : bool :=
  match xs with [] => false | _ :: _ => true end.

(** Left padding with zeros, as in the formats [03d] and [.4f]. *)
Fixpoint zeros (n : nat) : string :=
  match n with O => EmptyString | S k => String "0"%char (zeros k) end.

Definition zfill (width : nat) (s : string) : string :=
  (zeros (width - String.length s) ++ s)%string.

(** [format(x, ".<prec>f")]: fixed point with [prec] decimals. *)
Definition format_f (prec : nat) (x : Q) : string :=
  let n := round_half_even (x * inject_Z (pow10 prec)) in
  let a := Z.abs n in
  ((if (n <? 0)%Z then "-" else EmptyString)
   ++ pretty (a / pow10 prec)%Z ++ "."
   ++ zfill prec (pretty (a mod pow10 prec)%Z))%string.

End Py.

(** ** Data model *)

(** One rubric dimension: [{"score": ..., "rationale": ...}]. *)
Record dimension := Dimension {
  score : Q;
  rationale : option string;
}.

(** The dimension-score set [dims], a dict with the five fixed keys. *)
Record dimensions := Dimensions {
  EVID : dimension;
  MECH : dimension;
  INC : dimension;
  RISK : dimension;
  SPEC : dimension;
}.

(** Certification levels (the keys of [CERT_META]). *)
Inductive cert_level :=
| HK_INSTITUTIONAL
| HK_PRO
| HK_VERIFIED
| HK_REVIEWED
| HK_REJECTED.

Definition label (c : cert_level) : string :=
  match c with
  | HK_INSTITUTIONAL => "HK-INSTITUTIONAL"
  | HK_PRO => "HK-PRO"
  | HK_VERIFIED => "HK-VERIFIED"
  | HK_REVIEWED => "HK-REVIEWED"
  | HK_REJECTED => "HK-REJECTED"
  end.

(** Position in the ordering
    INSTITUTIONAL > PRO > VERIFIED > REVIEWED > REJECTED. *)
Definition rank (c : cert_level) : nat :=
  match c with
  | HK_REJECTED => 0
  | HK_REVIEWED => 1
  | HK_VERIFIED => 2
  | HK_PRO => 3
  | HK_INSTITUTIONAL => 4
  end.

(** ** EVID ceiling *)

Definition ceiling_note (cap : string) (inferred_ratio : Q) (threshold : string)
  : string :=
  ("EVID capped at " ++ cap ++ " (inferred_ratio="
   ++ Py.format_f 4 inferred_ratio ++ " > " ++ threshold ++ ")")%string.

(** [apply_evid_ceiling(evid_raw, inferred_ratio)]:
    [(evid_effective, ceiling_note | None)]. *)
Definition apply_evid_ceiling (evid_raw inferred_ratio : Q) : Q * option string :=
  if Py.gt inferred_ratio 0.75 then
    let cap := 6.5 in
    let note := ceiling_note "6.5" inferred_ratio "0.75" in
    (Py.min evid_raw cap, Some note)
  else if Py.gt inferred_ratio 0.60 then
    let cap := 7.2 in
    let note := ceiling_note "7.2" inferred_ratio "0.60" in
    (Py.min evid_raw cap, Some note)
  else (evid_raw, None).

(** ** HCI *)

(** [compute_hci(dims, evid_effective)] *)
Definition compute_hci (dims : dimensions) (evid_effective : Q) : Q :=
  let scores :=
    [ evid_effective;
      score (MECH dims);
      score (INC dims);
      score (RISK dims);
      score (SPEC dims) ] in
  Py.round (Py.sum scores / Py.len scores) 2.

(** ** Certification level *)

Section Classifier.

Context {flag : Type}.

Variables (dims : dimensions) (evid_effective hci inferred_ratio : Q).
Variables (hallucination_flags : list flag) (has_absence_assertions : bool).

(** The conditions of the five [if] statements, in source order. *)
Definition rejected_gate : bool :=
  Py.truthy_list hallucination_flags
  || Py.lt evid_effective 6.0
  || Py.lt hci 5.5.

Definition institutional_gate : bool :=
  let spec := score (SPEC dims) in
  Py.ge hci 8.5
  && Py.ge evid_effective 8.2
  && Py.le inferred_ratio 0.40
  && Py.ge spec 7.5
  && negb has_absence_assertions
  && negb (Py.truthy_list hallucination_flags).

Definition pro_gate : bool :=
  let spec := score (SPEC dims) in
  Py.ge hci 7.8
  && Py.ge evid_effective 7.6
  && Py.le inferred_ratio 0.50
  && Py.ge spec 7.0
  && negb has_absence_assertions.

Definition verified_gate : bool :=
  let spec := score (SPEC dims) in
  Py.ge hci 7.3
  && Py.ge evid_effective 7.2
  && Py.le inferred_ratio 0.60
  && Py.ge spec 6.5
  && negb has_absence_assertions.

Definition reviewed_gate : bool :=
  Py.ge hci 6.0 && Py.ge evid_effective 6.0.

(** [determine_certification_level]: [(certification_level, extra_fields)]. *)
Definition determine_certification_level : cert_level * gmap string bool :=
  if rejected_gate then (HK_REJECTED, ∅)
  else if institutional_gate then
    (HK_INSTITUTIONAL, {[ "institutional_requires_two_reviews" := true ]})
  else if pro_gate then
    (HK_PRO, {[ "pro_requires_second_review" := true ]})
  else if verified_gate then (HK_VERIFIED, ∅)
  else if reviewed_gate then (HK_REVIEWED, ∅)
  else (HK_REJECTED, ∅).

(** The classifier of the open question of the design notes: the
    HK-REVIEWED gate without its [evid_effective >= 6.0] condition. *)
Definition reviewed_gate_without_evid : bool := Py.ge hci 6.0.

Definition determine_certification_level_without_evid_check
  : cert_level * gmap string bool :=
  if rejected_gate then (HK_REJECTED, ∅)
  else if institutional_gate then
    (HK_INSTITUTIONAL, {[ "institutional_requires_two_reviews" := true ]})
  else if pro_gate then
    (HK_PRO, {[ "pro_requires_second_review" := true ]})
  else if verified_gate then (HK_VERIFIED, ∅)
  else if reviewed_gate_without_evid then (HK_REVIEWED, ∅)
  else (HK_REJECTED, ∅).

End Classifier.

(** ** Python objects

    The input record is loaded by [json.load] into Python objects: dicts
    and lists are mutable and shared by reference, the other values are
    immutable.  A [heap] maps the address of each dict and list to its
    current content. *)

Definition loc := positive.

Inductive val :=
| VNone
| VBool (b : bool)
| VNum (q : Q)
| VStr (s : string)
| VRef (l : loc).

Inductive obj :=
| ODict (d : gmap string val)
| OList (xs : list val).

Abbreviation heap := (gmap loc obj).

Inductive exn := AttributeError | TypeError | KeyError | JSONDecodeError.

Inductive result (A : Type) :=
| Ok (a : A)
| Raise (e : exn).
Arguments Ok {A} a.
Arguments Raise {A} e.

(** Strings: ASCII letters are lower-cased, every other byte is kept. *)
Definition lower_char (c : ascii) : ascii :=
  let n := nat_of_ascii c in
  if (65 <=? n)%nat && (n <=? 90)%nat then ascii_of_nat (n + 32) else c.

Fixpoint lower (s : string) : string :=
  match s with
  | EmptyString => EmptyString
  | String c s' => String (lower_char c) (lower s')
  end.

(** [p in s] for two strings: [p] occurs in [s] as a substring. *)
Fixpoint str_in (p s : string) : bool :=
  String.prefix p s
  || match s with
     | EmptyString => false
     | String _ s' => str_in p s'
     end.

(** [s[:n]] *)
Fixpoint str_take (n : nat) (s : string) : string :=
  match n, s with
  | S k, String c s' => String c (str_take k s')
  | _, _ => EmptyString
  end.

(** The one-character strings of [s], what [list(s)] holds. *)
Fixpoint str_chars (s : string) : list val :=
  match s with
  | EmptyString => []
  | String c s' => VStr (String c EmptyString) :: str_chars s'
  end.

(** [bool(v)] *)
Definition truthy (h : heap) (v : val) : bool :=
  match v with
  | VNone => false
  | VBool b => b
  | VNum q => negb (Qeq_bool q 0)
  | VStr s => negb (String.eqb s EmptyString)
  | VRef l =>
      match h !! l with
      | Some (ODict d) => negb (bool_decide (size d = 0%nat))
      | Some (OList xs) => Py.truthy_list xs
      | None => false
      end
  end.

(** [v == s] for a string literal [s]. *)
Definition eq_str (v : val) (s : string) : bool :=
  match v with
  | VStr t => String.eqb t s
  | _ => false
  end.

(** [a == b] on hashable values ([True == 1], [False == 0]). *)
Definition num_of (v : val) : option Q :=
  match v with
  | VBool b => Some (if b then 1 else 0)
  | VNum q => Some q
  | _ => None
  end.

Definition py_eq (a b : val) : bool :=
  match a, b with
  | VNone, VNone => true
  | VStr s, VStr t => String.eqb s t
  | _, _ =>
      match num_of a, num_of b with
      | Some x, Some y => Qeq_bool x y
      | _, _ => false
      end
  end.

(** [d.get(k, default)] *)
Definition get (d : gmap string val) (k : string) (dflt : val) : val :=
  default dflt (d !! k).

(** [f"CLM-{i:03d}"] *)
Definition clm_id (i : nat) : string :=
  ("CLM-" ++ Py.zfill 3 (pretty i))%string.

(** ** Inferred ratio *)

(** [compute_inferred_ratio(claims)] *)
Definition compute_inferred_ratio (claims : list (gmap string val)) : Q :=
  if negb (Py.truthy_list claims) then 1.0
  else
    let inferred :=
      Py.sum (flat_map
                (fun c =>
                   if eq_str (get c "evidence_type" (VStr "INFERRED")) "INFERRED"
                   then [1] else [])
                claims) in
    Py.round (inferred / Py.len claims) 4.

(** ** Absence assertion detection *)

Definition ABSENCE_PHRASES : list string :=
  [ "no third-party audit";
    "no audit";
    "no evidence found";
    "no public audit" ]%string.

Record absence_flag := AbsenceFlag {
  claim_id : val;
  flag_type : string;
  matched_phrase : string;
  detail : string;
}.

(** The lower-cased text of [c], the empty string when [c] has none. *)
Definition text_lower (c : gmap string val) : result string :=
  match get c "text" (VStr EmptyString) with
  | VStr s => Ok (lower s)
  | _ => Raise AttributeError
  end.

(** [next((p for p in ABSENCE_PHRASES if p in text_lower), None)] *)
Definition first_phrase (text_lower : string) : option string :=
  List.find (fun p => str_in p text_lower) ABSENCE_PHRASES.

(** [source = c.get("source") or {}; source.get("uri") or c.get("source_url")] *)
Definition source_uri (h : heap) (c : gmap string val) : result val :=
  let source := get c "source" VNone in
  let uri1 :=
    if truthy h source then
      match source with
      | VRef l =>
          match h !! l with
          | Some (ODict d) => Ok (get d "uri" VNone)
          | _ => Raise AttributeError
          end
      | _ => Raise AttributeError
      end
    else Ok VNone in
  match uri1 with
  | Ok u => Ok (if truthy h u then u else get c "source_url" VNone)
  | Raise e => Raise e
  end.

(** One iteration of the loop: the flag appended for [c], if any. *)
Definition detect_claim (h : heap) (c : gmap string val)
  : result (option absence_flag) :=
  match text_lower c with
  | Raise e => Raise e
  | Ok t =>
      match first_phrase t with
      | None => Ok None
      | Some matched =>
          if String.eqb matched EmptyString then Ok None
          else
            match source_uri h c with
            | Raise e => Raise e
            | Ok uri =>
                if negb (truthy h uri) then
                  Ok (Some {| claim_id := get c "claim_id" (VStr "?");
                              flag_type := "ABSENCE_ASSERTION";
                              matched_phrase := matched;
                              detail := "Claim asserts absence of evidence but provides no source URI." |})
                else Ok None
            end
      end
  end.

(** [detect_absence_assertions(claims)] *)
Fixpoint detect_absence_assertions (h : heap) (claims : list (gmap string val))
  : result (list absence_flag) :=
  match claims with
  | [] => Ok []
  | c :: rest =>
      match detect_claim h c with
      | Raise e => Raise e
      | Ok o =>
          match detect_absence_assertions h rest with
          | Raise e => Raise e
          | Ok flagged => Ok (option_list o ++ flagged)
          end
      end
  end.

(** ** Programs that allocate and mutate: a state and exception monad *)

Definition M (A : Type) : Type := heap -> result (A * heap).

#[export] Instance M_ret : MRet M := fun A a h => Ok (a, h).

#[export] Instance M_bind : MBind M := fun A B f m h =>
  match m h with
  | Ok (a, h') => f a h'
  | Raise e => Raise e
  end.

Definition raise {A} (e : exn) : M A := fun _ => Raise e.

Definition lift {A} (r : result A) : M A := fun h =>
  match r with
  | Ok a => Ok (a, h)
  | Raise e => Raise e
  end.

Definition get_heap : M heap := fun h => Ok (h, h).

(** A new object, at an address not in use. *)
Definition alloc (o : obj) : M loc := fun h =>
  let l := fresh (dom h) in Ok (l, <[l := o]> h).

(** The dict behind [v], for [v.get(...)]. *)
Definition as_dict (v : val) : M (gmap string val) := fun h =>
  match v with
  | VRef l =>
      match h !! l with
      | Some (ODict d) => Ok (d, h)
      | _ => Raise AttributeError
      end
  | _ => Raise AttributeError
  end.

(** The items of the list behind [v], for [for ... in v]. *)
Definition as_list (v : val) : M (list val) := fun h =>
  match v with
  | VRef l =>
      match h !! l with
      | Some (OList xs) => Ok (xs, h)
      | _ => Raise TypeError
      end
  | _ => Raise TypeError
  end.

(** [k in c] for a string literal [k]. *)
Definition contains (c : val) (k : string) : M bool := fun h =>
  match c with
  | VRef l =>
      match h !! l with
      | Some (ODict d) => Ok (bool_decide (is_Some (d !! k)), h)
      | Some (OList xs) => Ok (existsb (fun x => eq_str x k) xs, h)
      | None => Raise TypeError
      end
  | VStr s => Ok (str_in k s, h)
  | _ => Raise TypeError
  end.

(** [c[k] = v] for a string literal [k]: only a dict takes it. *)
Definition setitem (c : val) (k : string) (v : val) : M unit := fun h =>
  match c with
  | VRef l =>
      match h !! l with
      | Some (ODict d) => Ok ((), <[l := ODict (<[k := v]> d)]> h)
      | _ => Raise TypeError
      end
  | _ => Raise TypeError
  end.

(** [l.append(v)] *)
Definition append (l : loc) (v : val) : M unit := fun h =>
  match h !! l with
  | Some (OList xs) => Ok ((), <[l := OList (xs ++ [v])]> h)
  | _ => Raise AttributeError
  end.

(** The items [list(v)] copies: the items of a list, the characters of a
    string, the keys of a dict (here in the order of the map). *)
Definition iter (v : val) : M (list val) := fun h =>
  match v with
  | VStr s => Ok (str_chars s, h)
  | VRef l =>
      match h !! l with
      | Some (OList xs) => Ok (xs, h)
      | Some (ODict d) => Ok ((fun kv => VStr kv.1) <$> map_to_list d, h)
      | None => Raise TypeError
      end
  | _ => Raise TypeError
  end.

(** [v[:n]] *)
Definition slice (v : val) (n : nat) : M val := fun h =>
  match v with
  | VStr s => Ok (VStr (str_take n s), h)
  | VRef l =>
      match h !! l with
      | Some (OList xs) =>
          let l' := fresh (dom h) in Ok (VRef l', <[l' := OList (take n xs)]> h)
      | _ => Raise TypeError
      end
  | _ => Raise TypeError
  end.

(** Sets of hashable values: dicts and lists are not hashable. *)
Definition hashable (v : val) : bool :=
  match v with VRef _ => false | _ => true end.

Definition make_set (xs : list val) : result (list val) :=
  if forallb hashable xs then Ok xs else Raise TypeError.

Definition in_set (x : val) (s : list val) : result bool :=
  if hashable x then Ok (existsb (py_eq x) s) else Raise TypeError.

(** ** The normaliser loop of [run_pipeline]

    [for i, c in enumerate(claims, 1):
       if "claim_id" not in c: c["claim_id"] = f"CLM-{i:03d}"] *)
Fixpoint assign_claim_ids (i : nat) (claims : list val) : M unit :=
  match claims with
  | [] => mret ()
  | c :: rest =>
      present ← contains c "claim_id";
      _ ← (if negb present then setitem c "claim_id" (VStr (clm_id i)) else mret ());
      assign_claim_ids (S i) rest
  end.

(** ** evidence.json *)

Definition PIPELINE_VERSION : string := "HKP-1.1".

Record evidence_entry := EvidenceEntry {
  entry_claim_id : val;
  entry_claim_text : val;
  entry_evidence_type : val;
  entry_source : val;
  entry_confidence : val;
  entry_claim_flags : val;
  entry_notes : val;
}.

Record evidence_json := EvidenceJson {
  evidence_report_id : string;
  evidence_generated_at : string;
  evidence_pipeline_version : string;
  evidence_inferred_ratio : Q;
  evidence_entries : list evidence_entry;
}.

(** The body of the loop of [build_evidence_json] for the [i]-th claim. *)
Definition build_evidence_entry (absence_flag_ids : list val) (now : string)
    (i : nat) (claim : val) : M evidence_entry :=
  c ← as_dict claim;
  let cid := get c "claim_id" (VStr (clm_id i)) in
  let ev_type := get c "evidence_type" (VStr "INFERRED") in
  (* claim_flags = list(claim.get("claim_flags", []) or []) *)
  h ← get_heap;
  items ← (if truthy h (get c "claim_flags" VNone)
           then iter (get c "claim_flags" VNone) else mret []);
  claim_flags ← alloc (OList items);
  flagged ← lift (in_set cid absence_flag_ids);
  _ ← (if (flagged : bool) then append claim_flags (VStr "ABSENCE_ASSERTION") else mret ());
  (* source = claim.get("source") or {...} *)
  h ← get_heap;
  source ← (if truthy h (get c "source" VNone) then mret (get c "source" VNone)
            else
              excerpt ← slice (get c "text" (VStr EmptyString)) 120;
              l ← alloc (ODict (list_to_map
                     [ ("type", VStr "MODEL_REASONING");
                       ("uri", VNone);
                       ("title", VStr "AI-generated inference");
                       ("retrieved_at", VStr now);
                       ("excerpt", excerpt) ]));
              mret (VRef l));
  mret {| entry_claim_id := cid;
          entry_claim_text := get c "text" (VStr EmptyString);
          entry_evidence_type := ev_type;
          entry_source := source;
          entry_confidence := get c "confidence" (VNum 0.5);
          entry_claim_flags := VRef claim_flags;
          entry_notes := get c "notes" (VStr EmptyString) |}.

Fixpoint build_evidence_entries (absence_flag_ids : list val) (now : string)
    (i : nat) (claims : list val) : M (list evidence_entry) :=
  match claims with
  | [] => mret []
  | claim :: rest =>
      e ← build_evidence_entry absence_flag_ids now i claim;
      es ← build_evidence_entries absence_flag_ids now (S i) rest;
      mret (e :: es)
  end.

(** [build_evidence_json(report_id, claims, absence_flag_ids, inferred_ratio, now)] *)
Definition build_evidence_json (report_id : string) (claims : list val)
    (absence_flag_ids : list val) (inferred_ratio : Q) (now : string)
  : M evidence_json :=
  entries ← build_evidence_entries absence_flag_ids now 1 claims;
  mret {| evidence_report_id := report_id;
          evidence_generated_at := now;
          evidence_pipeline_version := PIPELINE_VERSION;
          evidence_inferred_ratio := inferred_ratio;
          evidence_entries := entries |}.

(** ** ledger.jsonl *)

(** What [json.loads] returns for one line of the ledger. *)
#[warnings="-register-all"] Inductive json :=
| JNull
| JBool (b : bool)
| JNum (q : Q)
| JStr (s : string)
| JArr (xs : list json)
| JObj (m : gmap string json).

Record ledger_entry := LedgerEntry {
  entry_id : string;
  timestamp : string;
  ledger_report_id : string;
  ledger_audit_id : string;
  event_type : string;
  certification_level : cert_level;
  ledger_hci : Q;
  ledger_evid_effective : Q;
  ledger_inferred_ratio : Q;
  author_model : string;
  human_reviewer : json;
  ledger_notes : string;
  prev_entry_id : json;
}.

(** [build_ledger_entry]; [ledger_id] is what [make_ledger_id()] returns
    (a time stamp and a random suffix). *)
Definition build_ledger_entry (ledger_id : string)
    (report_id audit_id : string) (cert_level : cert_level)
    (hci evid_effective inferred_ratio : Q) (author_model : string)
    (prev_entry_id : json) (now : string) : ledger_entry :=
  {| entry_id := ledger_id;
     timestamp := now;
     ledger_report_id := report_id;
     ledger_audit_id := audit_id;
     event_type := "CREATED";
     certification_level := cert_level;
     ledger_hci := hci;
     ledger_evid_effective := evid_effective;
     ledger_inferred_ratio := inferred_ratio;
     author_model := author_model;
     human_reviewer := JNull;
     ledger_notes := "Initial pipeline run.";
     prev_entry_id := prev_entry_id |}.

(** [str.strip()] and [str.splitlines()], on the ASCII white space and
    line boundaries. *)
Definition is_space (c : ascii) : bool :=
  let n := nat_of_ascii c in
  ((9 <=? n)%nat && (n <=? 13)%nat) || ((28 <=? n)%nat && (n <=? 32)%nat).

Definition is_linebreak (c : ascii) : bool :=
  let n := nat_of_ascii c in
  ((10 <=? n)%nat && (n <=? 13)%nat) || ((28 <=? n)%nat && (n <=? 30)%nat).

Fixpoint lstrip (s : string) : string :=
  match s with
  | String c s' => if is_space c then lstrip s' else s
  | EmptyString => EmptyString
  end.

Definition rstrip (s : string) : string := String.rev (lstrip (String.rev s)).

Definition strip (s : string) : string := rstrip (lstrip s).

(** [acc] is the current line, reversed; [after_cr] says that the
    previous character was a carriage return, so that a line feed now
    belongs to the same line boundary. *)
Fixpoint splitlines_from (after_cr : bool) (acc : string) (s : string)
  : list string :=
  match s with
  | EmptyString =>
      match acc with EmptyString => [] | _ => [String.rev acc] end
  | String c s' =>
      if after_cr && Ascii.eqb c "010" then splitlines_from false acc s'
      else if is_linebreak c then
        String.rev acc :: splitlines_from (Ascii.eqb c "013") EmptyString s'
      else splitlines_from false (String c acc) s'
  end.

Definition splitlines (s : string) : list string :=
  splitlines_from false EmptyString s.

(** [v[k]] for a string literal [k]. *)
Definition getitem (v : json) (k : string) : result json :=
  match v with
  | JObj m =>
      match m !! k with
      | Some x => Ok x
      | None => Raise KeyError
      end
  | _ => Raise TypeError
  end.

Section Ledger.

(** [json.loads] and [json.dumps] of the standard library. *)
Variable json_loads : string -> result json.
Variable json_dumps : ledger_entry -> string.

(** [json.loads(line)["entry_id"]] *)
Definition entry_id_of_line (line : string) : result json :=
  match json_loads line with
  | Ok v => getitem v "entry_id"
  | Raise e => Raise e
  end.

(** [prev_id] of [run_pipeline]; the ledger file is [None] when it does
    not exist, [JNull] is Python's [None]. *)
Definition read_prev_id (ledger : option string) : json :=
  let prev_id := JNull in
  match ledger with
  | Some text =>
      let lines := splitlines (strip text) in
      if Py.truthy_list lines then
        match entry_id_of_line (List.last lines EmptyString) with
        | Ok v => v
        | Raise _ => prev_id
        end
      else prev_id
  | None => prev_id
  end.

(** Step 5 of [run_pipeline]: the entry and the ledger file after the
    append. *)
Definition ledger_stage (ledger : option string) (ledger_id : string)
    (report_id audit_id : string) (cert_level : cert_level)
    (hci evid_effective inferred_ratio : Q) (author_model : string)
    (now : string) : ledger_entry * string :=
  let prev_id := read_prev_id ledger in
  let entry :=
    build_ledger_entry ledger_id report_id audit_id cert_level hci
      evid_effective inferred_ratio author_model prev_id now in
  (entry, (default EmptyString ledger ++ json_dumps entry ++ String "010" EmptyString)%string).

(** ** The run *)

(** The input record, after the defaults of [inp.get]; the title, which
    has no default, is [None] when the record has none. *)
Record input := Input {
  inp_title : option string;
  inp_claims : val;
  inp_dimensions : dimensions;
  inp_hallucination_flags : list val;
  inp_author_model : string;
}.

(** What the run takes from the clock and the random generator. *)
Record environment := Environment {
  env_now : string;
  env_report_id : string;
  env_audit_id : string;
  env_ledger_id : string;
}.

Record run_output := RunOutput {
  out_report_id : string;
  out_certification_level : cert_level;
  out_cert_extra : gmap string bool;
  out_hci : Q;
  out_evid_raw : Q;
  out_evid_effective : Q;
  out_ceiling_note : option string;
  out_inferred_ratio : Q;
  out_flags : list string;
  out_absence_flags : list absence_flag;
  out_evidence : evidence_json;
  out_ledger_entry : ledger_entry;
  out_ledger : string;
}.

(** [all_flags] of [build_sci_score_json] *)
Definition all_flags (absence_flags : list absence_flag)
    (hallucination_flags : list val) : list string :=
  (flag_type <$> absence_flags)
  ++ (if Py.truthy_list hallucination_flags then ["HALLUCINATION_DETECTED"%string] else []).

(** [inp["title"]] *)
Definition title_of (inp : input) : result string :=
  match inp_title inp with
  | Some t => Ok t
  | None => Raise KeyError
  end.

(** [run_pipeline].  Of the steps between evidence.json and the ledger
    (the score record, the rendering, the hashing, the audit record) the
    model keeps what can end the run, the lookup of the title; these
    steps read the claims and the scores and write none of them. *)
Definition run_pipeline (inp : input) (env : environment)
    (ledger : option string) : M run_output :=
  let now := env_now env in
  let report_id := env_report_id env in
  claims ← as_list (inp_claims inp);
  _ ← assign_claim_ids 1 claims;
  let dims := inp_dimensions inp in
  let hallucination_flags := inp_hallucination_flags inp in
  cs ← mapM as_dict claims;
  let inferred_ratio := compute_inferred_ratio cs in
  let evid_raw := score (EVID dims) in
  let '(evid_effective, ceiling_note) := apply_evid_ceiling evid_raw inferred_ratio in
  h ← get_heap;
  absence_flags ← lift (detect_absence_assertions h cs);
  absence_flag_ids ← lift (make_set (claim_id <$> absence_flags));
  let has_absence := Py.truthy_list absence_flags in
  let hci := compute_hci dims evid_effective in
  let '(cert_level, cert_extra) :=
    determine_certification_level dims evid_effective hci inferred_ratio
      hallucination_flags has_absence in
  evidence ← build_evidence_json report_id claims absence_flag_ids inferred_ratio now;
  _ ← lift (title_of inp);
  let '(entry, ledger') :=
    ledger_stage ledger (env_ledger_id env) report_id (env_audit_id env)
      cert_level hci evid_effective inferred_ratio (inp_author_model inp) now in
  mret {| out_report_id := report_id;
          out_certification_level := cert_level;
          out_cert_extra := cert_extra;
          out_hci := hci;
          out_evid_raw := evid_raw;
          out_evid_effective := evid_effective;
          out_ceiling_note := ceiling_note;
          out_inferred_ratio := inferred_ratio;
          out_flags := all_flags absence_flags hallucination_flags;
          out_absence_flags := absence_flags;
          out_evidence := evidence;
          out_ledger_entry := entry;
          out_ledger := ledger' |}.

End Ledger.

(** ** The specification's notions, used to state the properties *)

(** The unweighted mean of a list of scores. *)
Definition mean (xs : list Q) : Q :=
  fold_right Qplus 0 xs / inject_Z (Z.of_nat (length xs)).

#[export] Instance Q_eq_dec : EqDecision Q.
Proof. solve_decision. Defined.

#[export] Instance val_eq_dec : EqDecision val.
Proof. solve_decision. Defined.

(** A claim counts as INFERRED when its evidence type is the string
    INFERRED, or when it has no evidence-type field. *)
Definition counts_as_inferred (c : gmap string val) : Prop :=
  c !! "evidence_type" = None \/ c !! "evidence_type" = Some (VStr "INFERRED").

#[export] Instance counts_as_inferred_dec c : Decision (counts_as_inferred c).
Proof. unfold counts_as_inferred. apply _. Defined.

Definition inferred_count (claims : list (gmap string val)) : nat :=
  length (filter counts_as_inferred claims).

(** [p] occurs in [s]: substring containment. *)
Definition occurs_in (p s : string) : Prop :=
  exists before after : string, s = (before ++ p ++ after)%string.

(** The text contains at least one of the four phrases. *)
Definition asserts_absence (t : string) : Prop :=
  exists p, p ∈ ABSENCE_PHRASES /\ occurs_in p t.

(** [p] is the first phrase, in listed order, that the text contains. *)
Definition first_listed (p t : string) : Prop :=
  exists earlier later,
    ABSENCE_PHRASES = earlier ++ p :: later
    /\ occurs_in p t
    /\ Forall (fun q => ~ occurs_in q t) earlier.

(** The two places of a source URI: the [uri] of the nested source
    object, and the top-level legacy field [source_url]. *)
Definition nested_uri (h : heap) (c : gmap string val) : option val :=
  match c !! "source" with
  | Some (VRef l) =>
      match h !! l with
      | Some (ODict d) => d !! "uri"
      | _ => None
      end
  | _ => None
  end.

Definition legacy_uri (c : gmap string val) : option val := c !! "source_url".

Definition present_and_truthy (h : heap) (field : option val) : Prop :=
  exists u, field = Some u /\ truthy h u = true.

Definition has_source_uri (h : heap) (c : gmap string val) : Prop :=
  present_and_truthy h (nested_uri h c) \/ present_and_truthy h (legacy_uri c).


(** What the detector is to emit for one claim: [Some flag] or nothing. *)
Definition flag_outcome (h : heap) (c : gmap string val)
    (o : option absence_flag) : Prop :=
  exists s,
    get c "text" (VStr EmptyString) = VStr s
    /\ (is_Some o <-> asserts_absence (lower s) /\ ~ has_source_uri h c)
    /\ (forall f, o = Some f ->
          first_listed (matched_phrase f) (lower s)
          /\ claim_id f = get c "claim_id" (VStr "?")
          /\ flag_type f = "ABSENCE_ASSERTION"%string
          /\ detail f
             = "Claim asserts absence of evidence but provides no source URI."%string).

(** The last line of the ledger text, white space around the text
    apart. *)
Definition last_line (text : string) : option string :=
  last (splitlines (strip text)).


(** The line parses to an object whose [entry_id] is [v]. *)
Definition yields_entry_id (json_loads : string -> result json)
    (line : string) (v : json) : Prop :=
  exists m, json_loads line = Ok (JObj m) /\ m !! "entry_id" = Some v.

(** The one change the normaliser makes to a loaded object: the claim at
    position [i] of the list (counted from 0) is the dict at address [l],
    it has no [claim_id], and it gets the [i+1]-th sequential one. *)
Definition id_assigned (claims : list val) (l : loc)
    (before after : option obj) : Prop :=
  exists d i,
    before = Some (ODict d)
    /\ d !! "claim_id" = None
    /\ claims !! i = Some (VRef l)
    /\ after = Some (ODict (<["claim_id" := VStr (clm_id (S i))]> d)).

(** The flag list of an output entry [e] built for [claim], between the
    heap [h] before and the heap [h'] after: a list that [h] does not
    hold, whose content in [h'] is the claim's own flags followed by the
    derived flag, if any. *)
Definition flags_copied (h h' : heap) (claim : val) (e : evidence_entry)
  : Prop :=
  exists lf items derived,
    entry_claim_flags e = VRef lf
    /\ h !! lf = None
    /\ h' !! lf = Some (OList (items ++ derived))
    /\ (derived = [] \/ derived = [VStr "ABSENCE_ASSERTION"])
    /\ forall lc c l0 xs,
         claim = VRef lc -> h !! lc = Some (ODict c) ->
         c !! "claim_flags" = Some (VRef l0) -> h !! l0 = Some (OList xs) ->
         items = xs.

(** ** Sample inputs *)

Definition uniform (x : Q) : dimensions :=
  let d := {| score := x; rationale := None |} in
  {| EVID := d; MECH := d; INC := d; RISK := d; SPEC := d |}.

Definition all_tens : dimensions := uniform 10.0.

Definition all_sevens : dimensions := uniform 7.0.


(** A parser that rejects every line and a serialiser that writes
    nothing, to run the pipeline on examples that do not read the
    ledger. *)
Definition no_loads (line : string) : result json := Raise JSONDecodeError.

Definition no_dumps (e : ledger_entry) : string := EmptyString.

Definition sample_env : environment :=
  {| env_now := "2026-01-01T00:00:00Z";
     env_report_id := "HK-2026-AAAAAA";
     env_audit_id := "AUD-2026-AAAAAAAA";
     env_ledger_id := "LED-1767225600000-AAAA" |}.

(** An input without claims: the claim list is the empty list at
    address 1. *)
Definition no_claims_heap : heap := {[ 1%positive := OList [] ]}.

Definition no_claims_input (dims : dimensions) : input :=
  {| inp_title := Some "Quarterly review"%string;
     inp_claims := VRef 1%positive;
     inp_dimensions := dims;
     inp_hallucination_flags := [];
     inp_author_model := "unknown" |}.

Definition three_claims : list (gmap string val) :=
  [ {[ "evidence_type" := VStr "INFERRED" ]};
    {[ "text" := VStr "Revenue grew." ]};
    {[ "evidence_type" := VStr "VERIFIED" ]} ].

(** Claims for the detector: a claim without a source, a claim whose
    source object (at address 5) has a URI, a claim with a legacy URI. *)
Definition detector_heap : heap :=
  {[ 5%positive := ODict {[ "uri" := VStr "https://example.org/audit.pdf" ]} ]}.

Definition detector_claims : list (gmap string val) :=
  [ {[ "claim_id" := VStr "CLM-001";
       "text" := VStr "No public audit exists" ]};
    {[ "claim_id" := VStr "CLM-002";
       "text" := VStr "There is no audit on record";
       "source" := VRef 5%positive ]};
    {[ "claim_id" := VStr "CLM-003";
       "text" := VStr "no third-party audit";
       "source_url" := VStr "https://example.org" ]} ].

(** A stand-in for [json.loads]: a line that starts with a brace is an
    object whose [entry_id] is the line itself, any other line is
    rejected. *)
Definition sample_loads (line : string) : result json :=
  match line with
  | String "{" _ => Ok (JObj {[ "entry_id" := JStr line ]})
  | _ => Raise JSONDecodeError
  end.

Definition sample_ledger : string :=
  String.append "{first}" (String "010" (String.append "{second}" (String "010" EmptyString))).

(** One claim without an identifier: the list at address 1 holds the
    dict at address 2. *)
Definition one_claim : gmap string val :=
  {[ "text" := VStr "No public audit exists";
     "evidence_type" := VStr "INFERRED";
     "confidence" := VNum 0.9 ]}.

Definition one_claim_heap : heap :=
  {[ 1%positive := OList [VRef 2%positive];
     2%positive := ODict one_claim ]}.

Definition one_claim_input : input :=
  {| inp_title := Some "Audit status"%string;
     inp_claims := VRef 1%positive;
     inp_dimensions := all_tens;
     inp_hallucination_flags := [];
     inp_author_model := "unknown" |}.

(** Ten claims with evidence type VERIFIED, at addresses 2 to 11 of a
    heap whose address 1 holds the claim list. *)
Definition verified_claim (i : nat) : gmap string val :=
  {[ "claim_id" := VStr (clm_id i);
     "text" := VStr "Audited accounts were filed.";
     "evidence_type" := VStr "VERIFIED" ]}.

Definition ten_verified_heap : heap :=
  <[ 1%positive := OList ((fun i => VRef (Pos.of_nat (S i))) <$> seq 1 10) ]>
    (list_to_map ((fun i => (Pos.of_nat (S i), ODict (verified_claim i))) <$> seq 1 10)).

(** ** More of the source, for the further properties *)

(** The scoring steps of [run_pipeline] between the inferred ratio and
    the artifacts: the ceiling on the raw EVID score, the HCI, the level.
    The result is [(evid_effective, hci, (cert_level, cert_extra))]. *)
Definition scoring_steps {flag : Type} (dims : dimensions) (inferred_ratio : Q)
    (hallucination_flags : list flag) (has_absence : bool)
  : Q * Q * (cert_level * gmap string bool) :=
  let evid_raw := score (EVID dims) in
  let '(evid_effective, ceiling_note) := apply_evid_ceiling evid_raw inferred_ratio in
  let hci := compute_hci dims evid_effective in
  (evid_effective, hci,
   determine_certification_level dims evid_effective hci inferred_ratio
     hallucination_flags has_absence).

(** The level that [scoring_steps] assigns. *)
Definition level_of {flag : Type} (dims : dimensions) (inferred_ratio : Q)
    (hallucination_flags : list flag) (has_absence : bool) : cert_level :=
  (scoring_steps dims inferred_ratio hallucination_flags has_absence).2.1.

(** Every score of [dims1] is at most the score of [dims2]. *)
Definition scores_le (dims1 dims2 : dimensions) : Prop :=
  score (EVID dims1) <= score (EVID dims2)
  /\ score (MECH dims1) <= score (MECH dims2)
  /\ score (INC dims1) <= score (INC dims2)
  /\ score (RISK dims1) <= score (RISK dims2)
  /\ score (SPEC dims1) <= score (SPEC dims2).

(** A line of the ledger as [json.dumps] writes it: no line boundary
    inside, no white space at either end (it opens and closes with a
    brace). *)
Fixpoint has_linebreak (s : string) : bool :=
  match s with
  | EmptyString => false
  | String c s' => is_linebreak c || has_linebreak s'
  end.

Definition starts_solid (s : string) : bool :=
  match s with
  | EmptyString => false
  | String c _ => negb (is_space c)
  end.

Definition one_line (s : string) : Prop :=
  has_linebreak s = false
  /\ starts_solid s = true
  /\ starts_solid (String.rev s) = true.

(** A text that is empty or ends with a line feed, as every ledger that
    the pipeline alone has written. *)
Definition terminated (text : string) : Prop :=
  text = EmptyString
  \/ exists t, text = (t ++ String "010" EmptyString)%string.

(** A stand-in for the [json] module that keeps the identifier of an
    entry between braces, and reads it back. *)
Definition brace_dumps (e : ledger_entry) : string :=
  String "{" (entry_id e ++ "}")%string.

Definition brace_loads (line : string) : result json :=
  match line with
  | String "{" rest =>
      match String.rev rest with
      | String "}" inner => Ok (JObj {[ "entry_id" := JStr (String.rev inner) ]})
      | _ => Raise JSONDecodeError
      end
  | _ => Raise JSONDecodeError
  end.

(** ** The batch runner ([batch_run.py]) *)

(** The dict that [run_pipeline] returns, or the one that [run_batch]
    puts in its place when the run raises; [None] is Python's [None]. *)
Record result_dict := ResultDict {
  res_report_id : string;
  res_certification_level : string;
  res_hci : option Q;
  res_evid_raw : option Q;
  res_evid_effective : option Q;
  res_inferred_ratio : option Q;
  res_flags : list string;
}.

(** The [return] of [run_pipeline]. *)
Definition result_of_output (o : run_output) : result_dict :=
  {| res_report_id := out_report_id o;
     res_certification_level := label (out_certification_level o);
     res_hci := Some (out_hci o);
     res_evid_raw := Some (out_evid_raw o);
     res_evid_effective := Some (out_evid_effective o);
     res_inferred_ratio := Some (out_inferred_ratio o);
     res_flags := out_flags o |}.

(** The [except Exception as exc] branch of [run_batch]. *)
Definition error_result (message : string) : result_dict :=
  {| res_report_id := "ERROR";
     res_certification_level := "ERROR";
     res_hci := None;
     res_evid_raw := None;
     res_evid_effective := None;
     res_inferred_ratio := None;
     res_flags := [message] |}.

(** One input file of the batch: its name, what [json.load] makes of it
    (the input record and its objects, or an exception), and what the run
    will take from the clock and the random generator. *)
Record batch_file := BatchFile {
  file_name : string;
  file_stem : string;
  file_loaded : result (input * heap);
  file_env : environment;
}.

Record run_record := RunRecord {
  rec_run_id : string;
  rec_input_file : string;
  rec_title : string;
  rec_report_id : string;
  rec_certification_level : string;
  rec_hci : option Q;
  rec_evid_effective : option Q;
  rec_inferred_ratio : option Q;
  rec_flags : list string;
}.

Record summary := Summary {
  total_runs : nat;
  counts_by_level : gmap string nat;
  avg_hci : option Q;
  avg_evid_effective : option Q;
  avg_inferred_ratio : option Q;
  runs : list run_record;
}.

Inductive batch_outcome :=
| Exited (code : Z)
| Failed (e : exn)
| Done (s : summary).

(** [round(sum(r[field] for r in valid) / len(valid), ndigits) if valid
    else None]; adding [None] raises [TypeError]. *)
Definition average (field : run_record -> option Q) (ndigits : nat)
    (valid : list run_record) : result (option Q) :=
  if Py.truthy_list valid then
    match mapM field valid with
    | Some xs => Ok (Some (Py.round (Py.sum xs / Py.len valid) ndigits))
    | None => Raise TypeError
    end
  else Ok None.

(** [level_counts[level] = level_counts.get(level, 0) + 1] *)
Definition count_level (level : string) (level_counts : gmap string nat)
  : gmap string nat :=
  <[level := (default 0 (level_counts !! level) + 1)%nat]> level_counts.

Section Batch.

Variable json_loads : string -> result json.
Variable json_dumps : ledger_entry -> string.

(** [str(exc)] *)
Variable str_exc : exn -> string.

(** [run_pipeline(str(inp_file), str(run_out))]: [json.load] first, then
    the run on what it has loaded. *)
Definition run_pipeline_file (f : batch_file) (ledger : option string)
  : result (run_output * heap) :=
  match file_loaded f with
  | Ok (inp, h) => run_pipeline json_loads json_dumps inp (file_env f) ledger h
  | Raise e => Raise e
  end.

(** The title for the summary: the title of the file when it loads and
    has one, the stem of its name otherwise. *)
Definition title_for_summary (f : batch_file) : string :=
  match file_loaded f with
  | Ok (inp, _) => default (file_stem f) (inp_title inp)
  | Raise _ => file_stem f
  end.

(** The body of the loop of [run_batch] for one file: the record, and the
    ledger after the run. *)
Definition batch_step (f : batch_file) (ledger : option string)
  : run_record * option string :=
  let '(result, ledger') :=
    match run_pipeline_file f ledger with
    | Ok (o, _) => (result_of_output o, Some (out_ledger o))
    | Raise exc => (error_result (str_exc exc), ledger)
    end in
  ({| rec_run_id := file_stem f;
      rec_input_file := file_name f;
      rec_title := title_for_summary f;
      rec_report_id := res_report_id result;
      rec_certification_level := res_certification_level result;
      rec_hci := res_hci result;
      rec_evid_effective := res_evid_effective result;
      rec_inferred_ratio := res_inferred_ratio result;
      rec_flags := res_flags result |},
   ledger').

(** The loop of [run_batch]: the records, the counts and the ledger. *)
Fixpoint batch_loop (files : list batch_file) (run_records : list run_record)
    (level_counts : gmap string nat) (ledger : option string)
  : list run_record * gmap string nat * option string :=
  match files with
  | [] => (run_records, level_counts, ledger)
  | f :: rest =>
      let '(rec, ledger') := batch_step f ledger in
      batch_loop rest (run_records ++ [rec])
        (count_level (rec_certification_level rec) level_counts) ledger'
  end.

(** [run_batch], on the input files in sorted order, without the writing
    of the two summary files; the second component is the ledger that
    the runs leave. *)
Definition run_batch (input_files : list batch_file) (ledger : option string)
  : batch_outcome * option string :=
  if negb (Py.truthy_list input_files) then (Exited 1, ledger)
  else
    let '(run_records, level_counts, ledger') :=
      batch_loop input_files [] ∅ ledger in
    let total := length run_records in
    let valid := filter (fun r => rec_hci r <> None) run_records in
    match average rec_hci 3 valid,
          average rec_evid_effective 3 valid,
          average rec_inferred_ratio 4 valid with
    | Ok a_hci, Ok a_evid, Ok a_ratio =>
        (Done {| total_runs := total;
                 counts_by_level := level_counts;
                 avg_hci := a_hci;
                 avg_evid_effective := a_evid;
                 avg_inferred_ratio := a_ratio;
                 runs := run_records |},
         ledger')
    | Raise e, _, _ | _, Raise e, _ | _, _, Raise e => (Failed e, ledger')
    end.

End Batch.

(** The runs of a summary that completed, and the sum of its counts. *)
Definition completed (r : run_record) : Prop := rec_hci r <> None.

Definition sum_of_counts (level_counts : gmap string nat) : nat :=
  map_fold (fun _ n acc => (n + acc)%nat) 0%nat level_counts.

(** A record is that of a failed run, with level ERROR and no number, or
    that of a completed run, with a certification level and the three
    numbers. *)
Definition shaped (r : run_record) : Prop :=
  (rec_certification_level r = "ERROR"%string /\ rec_hci r = None
   /\ rec_evid_effective r = None /\ rec_inferred_ratio r = None)
  \/ ((exists c, rec_certification_level r = label c)
      /\ is_Some (rec_hci r) /\ is_Some (rec_evid_effective r)
      /\ is_Some (rec_inferred_ratio r)).

(** The levels that a summary can count. *)
Definition known_levels : list string :=
  [ "HK-INSTITUTIONAL"; "HK-PRO"; "HK-VERIFIED"; "HK-REVIEWED"; "HK-REJECTED";
    "ERROR" ]%string.

(** Messages of exceptions, for the examples. *)
Definition sample_str_exc (e : exn) : string :=
  match e with
  | AttributeError => "AttributeError"
  | TypeError => "TypeError"
  | KeyError => "KeyError"
  | JSONDecodeError => "JSONDecodeError"
  end.

(** A batch of three files: the second is not valid JSON. *)
Definition sample_batch : list batch_file :=
  [ {| file_name := "01_none.json"; file_stem := "01_none";
       file_loaded := Ok (no_claims_input all_tens, no_claims_heap);
       file_env := sample_env |};
    {| file_name := "02_broken.json"; file_stem := "02_broken";
       file_loaded := Raise JSONDecodeError;
       file_env := sample_env |};
    {| file_name := "03_one.json"; file_stem := "03_one";
       file_loaded := Ok (one_claim_input, one_claim_heap);
       file_env := sample_env |} ].

(** The ledger after one more entry has been appended as a line. *)
Definition append_entry (json_dumps : ledger_entry -> string)
    (ledger : option string) (e : ledger_entry) : option string :=
  Some (default EmptyString ledger ++ json_dumps e
        ++ String "010" EmptyString)%string.

(** Two claims that differ at most in the case of the ASCII letters of
    their text. *)
Definition same_but_case (c1 c2 : gmap string val) : Prop :=
  exists c s1 s2,
    c1 = <["text" := VStr s1]> c /\ c2 = <["text" := VStr s2]> c
    /\ lower s1 = lower s2.

(** An evidence entry [e] as the loop of [build_evidence_json] builds it
    for [claim] with the flagged identifiers [ids], read in the heap [h']
    after the loop: the fields copied from the claim dict, the flag list,
    a list of its own that ends with the derived flag when the entry's
    identifier is among [ids], and the source, the claim's own or the
    default record. *)
Definition entry_built (ids : list val) (h' : heap) (claim : val)
    (e : evidence_entry) : Prop :=
  exists l c lf items flagged,
    claim = VRef l /\ h' !! l = Some (ODict c)
    /\ (forall v, c !! "claim_id" = Some v -> entry_claim_id e = v)
    /\ entry_claim_text e = get c "text" (VStr EmptyString)
    /\ entry_evidence_type e = get c "evidence_type" (VStr "INFERRED")
    /\ entry_confidence e = get c "confidence" (VNum 0.5)
    /\ entry_notes e = get c "notes" (VStr EmptyString)
    /\ entry_claim_flags e = VRef lf
    /\ in_set (entry_claim_id e) ids = Ok flagged
    /\ h' !! lf
       = Some (OList (items ++ if (flagged : bool)
                               then [VStr "ABSENCE_ASSERTION"] else []))
    /\ (entry_source e = get c "source" VNone
        \/ exists ls d,
             entry_source e = VRef ls /\ h' !! ls = Some (ODict d)
             /\ d !! "type" = Some (VStr "MODEL_REASONING")
             /\ d !! "uri" = Some VNone).


(** A claim list with one dict that has no identifier. *)
Definition bare_claim_heap : heap :=
  {[ 1%positive := OList [VRef 2%positive];
     2%positive := ODict {[ "text" := VStr "Revenue grew." ]} ]}.

Definition bare_claim_heap_after : heap :=
  <[ 2%positive := ODict {[ "text" := VStr "Revenue grew.";
                            "claim_id" := VStr "CLM-001" ]} ]> bare_claim_heap.

(** ** sci_score.json and humanklu_audit.json *)

(** The values that the two records hold: a scalar or an object of the
    loaded input, carried as it is, or a list or a dict that the builder
    makes. *)
#[warnings="-register-all"] Inductive field :=
| FVal (v : val)
| FList (xs : list field)
| FDict (d : gmap string field).

Definition FNum (q : Q) : field := FVal (VNum q).

Definition FStr (s : string) : field := FVal (VStr s).

Definition FBool (b : bool) : field := FVal (VBool b).

(** An entry of [CERT_META]. *)
Record cert_meta := CertMeta {
  meta_bg : string;
  meta_border : string;
  meta_text : string;
  meta_icon : string;
  meta_label : string;
}.

Definition CERT_META : gmap string cert_meta :=
  list_to_map
    [ ("HK-INSTITUTIONAL"%string,
       {| meta_bg := "#1A1200"; meta_border := "#D4AF37";
          meta_text := "#D4AF37"; meta_icon := "🏛";
          meta_label := "HK-INSTITUTIONAL" |});
      ("HK-PRO"%string,
       {| meta_bg := "#0D2010"; meta_border := "#D4AF37";
          meta_text := "#34D399"; meta_icon := "⭐";
          meta_label := "HK-PRO" |});
      ("HK-VERIFIED"%string,
       {| meta_bg := "#0D2010"; meta_border := "#34D399";
          meta_text := "#34D399"; meta_icon := "✅";
          meta_label := "HK-VERIFIED" |});
      ("HK-REVIEWED"%string,
       {| meta_bg := "#1A1500"; meta_border := "#FBBF24";
          meta_text := "#FBBF24"; meta_icon := "🔍";
          meta_label := "HK-REVIEWED" |});
      ("HK-REJECTED"%string,
       {| meta_bg := "#1A0A0A"; meta_border := "#F87171";
          meta_text := "#F87171"; meta_icon := "❌";
          meta_label := "HK-REJECTED" |}) ].

#[export] Instance result_ret : MRet result := fun A a => Ok a.

#[export] Instance result_bind : MBind result := fun A B f r =>
  match r with
  | Ok a => f a
  | Raise e => Raise e
  end.

(** [{"score": d["score"], "rationale": d.get("rationale", <empty>)}] *)
Definition dimension_field (d : dimension) : field :=
  FDict (list_to_map
           [ ("score"%string, FNum (score d));
             ("rationale"%string, FStr (default EmptyString (rationale d))) ]).

(** A flag dict of [detect_absence_assertions]. *)
Definition flag_field (f : absence_flag) : field :=
  FDict (list_to_map
           [ ("claim_id"%string, FVal (claim_id f));
             ("flag_type"%string, FStr (flag_type f));
             ("matched_phrase"%string, FStr (matched_phrase f));
             ("detail"%string, FStr (detail f)) ]).

Definition note_field (ceiling_note : option string) : field :=
  match ceiling_note with
  | Some note => FStr note
  | None => FVal VNone
  end.

(** [build_sci_score_json]; the last step is [obj.update(cert_extra)]. *)
Definition build_sci_score_json (report_id : string) (dims : dimensions)
    (evid_raw evid_effective hci : Q) (cert_level : cert_level)
    (cert_extra : gmap string bool) (inferred_ratio : Q)
    (ceiling_note : option string) (hallucination_flags : list val)
    (absence_flags : list absence_flag) (now : string) : gmap string field :=
  let obj : gmap string field :=
    list_to_map
      [ ("report_id"%string, FStr report_id);
        ("generated_at"%string, FStr now);
        ("pipeline_version"%string, FStr PIPELINE_VERSION);
        ("dimensions"%string,
         FDict (list_to_map
                  [ ("EVID"%string, dimension_field (EVID dims));
                    ("MECH"%string, dimension_field (MECH dims));
                    ("INC"%string, dimension_field (INC dims));
                    ("RISK"%string, dimension_field (RISK dims));
                    ("SPEC"%string, dimension_field (SPEC dims)) ]));
        ("evid_raw"%string, FNum evid_raw);
        ("evid_effective"%string, FNum evid_effective);
        ("hci"%string, FNum hci);
        ("inferred_ratio"%string, FNum inferred_ratio);
        ("certification_level"%string, FStr (label cert_level));
        ("evid_ceiling_applied"%string, note_field ceiling_note);
        ("flags"%string,
         FList (FStr <$> all_flags absence_flags hallucination_flags));
        ("hallucination_flags"%string, FList (FVal <$> hallucination_flags));
        ("absence_assertion_flags"%string, FList (flag_field <$> absence_flags)) ] in
  (FBool <$> cert_extra) ∪ obj.

(** [d[k]] on a dict of the builders. *)
Definition item (d : gmap string field) (k : string) : result field :=
  match d !! k with
  | Some v => Ok v
  | None => Raise KeyError
  end.

(** [v[k]] for a string literal [k]: only a dict takes it. *)
Definition subscript (h : heap) (v : field) (k : string) : result field :=
  match v with
  | FDict d => item d k
  | FVal (VRef l) =>
      match h !! l with
      | Some (ODict d) =>
          match d !! k with
          | Some x => Ok (FVal x)
          | None => Raise KeyError
          end
      | _ => Raise TypeError
      end
  | _ => Raise TypeError
  end.

(** [CERT_META[cert]]: a list or a dict is not hashable. *)
Definition cert_meta_of (cert : field) : result cert_meta :=
  match cert with
  | FVal (VStr s) =>
      match CERT_META !! s with
      | Some m => Ok m
      | None => Raise KeyError
      end
  | FVal (VRef _) | FList _ | FDict _ => Raise TypeError
  | FVal _ => Raise KeyError
  end.

(** [list(v)] *)
Definition list_of (h : heap) (v : field) : result (list field) :=
  match v with
  | FList xs => Ok xs
  | FDict d => Ok ((fun kv => FStr kv.1) <$> map_to_list d)
  | FVal x =>
      match iter x h with
      | Ok (xs, _) => Ok (FVal <$> xs)
      | Raise e => Raise e
      end
  end.

(** [if k in sci: obj[k] = sci[k]] *)
Definition carry (sci : gmap string field) (k : string)
    (obj : gmap string field) : gmap string field :=
  match sci !! k with
  | Some v => <[k := v]> obj
  | None => obj
  end.

Section Audit.

(** [str(v)], for the f-string of the badge. *)
Variable str_field : field -> string.

(** [build_audit_json]; [audit_id] is what [make_audit_id(year)] returns,
    and [h] holds the objects of the loaded input. *)
Definition build_audit_json (audit_id : string) (h : heap) (report_id : string)
    (sci : gmap string field) (artifact_hashes : gmap string string)
    (evid_raw evid_effective inferred_ratio : Q) (now : string)
  : result (gmap string field) :=
  cert ← item sci "certification_level";
  hci ← item sci "hci";
  dims ← item sci "dimensions";
  meta ← cert_meta_of cert;
  all_flags ← list_of h (default (FList []) (sci !! "flags"));
  evid ← subscript h dims "EVID" ≫= (fun d => subscript h d "score");
  mech ← subscript h dims "MECH" ≫= (fun d => subscript h d "score");
  inc ← subscript h dims "INC" ≫= (fun d => subscript h d "score");
  risk ← subscript h dims "RISK" ≫= (fun d => subscript h d "score");
  spec ← subscript h dims "SPEC" ≫= (fun d => subscript h d "score");
  let obj : gmap string field :=
    list_to_map
      [ ("audit_id"%string, FStr audit_id);
        ("report_id"%string, FStr report_id);
        ("created_at"%string, FStr now);
        ("hkp_version"%string, FStr "1.1");
        ("pipeline_version"%string, FStr PIPELINE_VERSION);
        ("artifact_hashes"%string, FDict (FStr <$> artifact_hashes));
        ("sci_summary"%string,
         FDict (list_to_map
                  [ ("EVID"%string, evid);
                    ("MECH"%string, mech);
                    ("INC"%string, inc);
                    ("RISK"%string, risk);
                    ("SPEC"%string, spec);
                    ("HCI"%string, hci) ]));
        ("evid_raw"%string, FNum evid_raw);
        ("evid_effective"%string, FNum evid_effective);
        ("inferred_ratio"%string, FNum inferred_ratio);
        ("certification_level"%string, cert);
        ("evid_ceiling_applied"%string,
         default (FVal VNone) (sci !! "evid_ceiling_applied"));
        ("flags"%string, FList all_flags);
        ("absence_assertion_flags"%string,
         default (FList []) (sci !! "absence_assertion_flags"));
        ("hallucination_flags"%string,
         default (FList []) (sci !! "hallucination_flags"));
        ("human_reviewer"%string, FVal VNone);
        ("badge"%string,
         FDict (list_to_map
                  [ ("label"%string, FStr (meta_label meta));
                    ("border_color"%string, FStr (meta_border meta));
                    ("text_color"%string, FStr (meta_text meta));
                    ("icon"%string, FStr (meta_icon meta));
                    ("hci_display"%string, FStr (str_field hci ++ "/10")) ])) ] in
  mret (carry sci "institutional_requires_two_reviews"
          (carry sci "pro_requires_second_review" obj)).

(** Steps 2 and 4 of [run_pipeline]: the score record and the audit
    record of a run with output [o]; [hashes] are the digests of the
    three files written before. *)
Definition sci_of_run (inp : input) (env : environment) (o : run_output)
  : gmap string field :=
  build_sci_score_json (out_report_id o) (inp_dimensions inp) (out_evid_raw o)
    (out_evid_effective o) (out_hci o) (out_certification_level o)
    (out_cert_extra o) (out_inferred_ratio o) (out_ceiling_note o)
    (inp_hallucination_flags inp) (out_absence_flags o) (env_now env).

Definition audit_of_run (inp : input) (env : environment) (o : run_output)
    (h : heap) (hashes : gmap string string) : result (gmap string field) :=
  build_audit_json (env_audit_id env) h (out_report_id o) (sci_of_run inp env o)
    hashes (out_evid_raw o) (out_evid_effective o) (out_inferred_ratio o)
    (env_now env).

End Audit.

(** [str] of a value, for the examples: the numbers are not printed. *)
Definition sample_str_field (v : field) : string :=
  match v with
  | FVal (VStr s) => s
  | FVal VNone => "None"
  | _ => "?"
  end.

(** * Properties *)

(** ** The scenarios of the specification, by computation *)

Example ceiling_scenario :
  apply_evid_ceiling 9.0 0.8
  = (6.5, Some "EVID capped at 6.5 (inferred_ratio=0.8000 > 0.75)"%string).
Proof. vm_compute. reflexivity. Qed.

Example no_claims_scenario :
  exists o h',
    run_pipeline no_loads no_dumps (no_claims_input (uniform 5.0)) sample_env
      None no_claims_heap = Ok (o, h')
    /\ out_inferred_ratio o = 1.0
    /\ out_evid_effective o = 5.0
    /\ out_hci o == 5.0
    /\ out_certification_level o = HK_REJECTED.
Proof.
  eexists _, _. split; [vm_compute; reflexivity|].
  repeat split; vm_compute; congruence.
Qed.

Example ten_verified_scenario :
  exists o h',
    run_pipeline no_loads no_dumps (no_claims_input (uniform 9.0)) sample_env
      None ten_verified_heap = Ok (o, h')
    /\ out_inferred_ratio o == 0
    /\ out_evid_effective o = 9.0
    /\ out_hci o == 9.0
    /\ out_certification_level o = HK_INSTITUTIONAL
    /\ out_cert_extra o = {[ "institutional_requires_two_reviews" := true ]}.
Proof.
  eexists _, _. split; [vm_compute; reflexivity|].
  repeat split; vm_compute; congruence.
Qed.

Example lower_example : lower "No PUBLIC Audit (2024)" = "no public audit (2024)"%string.
Proof. reflexivity. Qed.

Example str_in_example :
  str_in "no audit" "there is no audit here" = true
  /\ str_in "no audit" "no public audit" = false.
Proof. split; reflexivity. Qed.

Example splitlines_example :
  splitlines (String.append "a" (String "013" (String "010"
     (String.append "b" (String "010" (String "010" "c"))))))
  = [ "a"; "b"; EmptyString; "c" ]%string.
Proof. reflexivity. Qed.

Example last_line_example : last_line sample_ledger = Some "{second}"%string.
Proof. vm_compute. reflexivity. Qed.

Example strip_example :
  strip (String "009" (String.append " a b " (String "010" (String "010" EmptyString))))
  = "a b"%string.
Proof. vm_compute. reflexivity. Qed.

(** A record without title: the run raises [KeyError]. *)
Example no_title_scenario :
  run_pipeline no_loads no_dumps
    {| inp_title := None; inp_claims := VRef 1%positive;
       inp_dimensions := all_tens; inp_hallucination_flags := [];
       inp_author_model := "unknown" |}
    sample_env None no_claims_heap
  = Raise KeyError.
Proof. vm_compute. reflexivity. Qed.

(** A claim that is not an object: the run raises [TypeError]. *)
Example bad_claim_scenario :
  run_pipeline no_loads no_dumps (no_claims_input all_tens) sample_env None
    {[ 1%positive := OList [VNum 3] ]}
  = Raise TypeError.
Proof. vm_compute. reflexivity. Qed.

Example clm_id_example : clm_id 7 = "CLM-007"%string /\ clm_id 1234 = "CLM-1234"%string.
Proof. split; vm_compute; reflexivity. Qed.

(** ** Comparisons and [min] *)

Lemma Qle_bool_false (x y : Q) : Qle_bool x y = false <-> y < x.
Proof.
  split; intros H.
  - apply Qnot_le_lt. intros Hle. apply Qle_bool_iff in Hle. congruence.
  - destruct (Qle_bool x y) eqn:E; [|reflexivity].
    apply Qle_bool_iff in E. lra.
Qed.

Lemma lt_true (a b : Q) : Py.lt a b = true <-> a < b.
Proof. unfold Py.lt. rewrite negb_true_iff. apply Qle_bool_false. Qed.

Lemma gt_true (a b : Q) : Py.gt a b = true <-> b < a.
Proof. unfold Py.gt. rewrite negb_true_iff. apply Qle_bool_false. Qed.

Lemma le_true (a b : Q) : Py.le a b = true <-> a <= b.
Proof. apply Qle_bool_iff. Qed.

Lemma ge_true (a b : Q) : Py.ge a b = true <-> b <= a.
Proof. apply Qle_bool_iff. Qed.

Lemma lt_false (a b : Q) : Py.lt a b = false <-> b <= a.
Proof. unfold Py.lt. rewrite negb_false_iff. apply Qle_bool_iff. Qed.

Lemma gt_false (a b : Q) : Py.gt a b = false <-> a <= b.
Proof. unfold Py.gt. rewrite negb_false_iff. apply Qle_bool_iff. Qed.

Lemma ge_false (a b : Q) : Py.ge a b = false <-> a < b.
Proof. apply Qle_bool_false. Qed.

Lemma truthy_list_true {A} (xs : list A) : Py.truthy_list xs = true <-> xs <> [].
Proof. destruct xs; simpl; split; congruence. Qed.

(** Python's [min] of two floats is the mathematical minimum, and it is
    one of its arguments. *)
Lemma min_Qmin (a b : Q) : Py.min a b = Qmin a b.
Proof.
  unfold Py.min, Qmin, GenericMinMax.gmin.
  destruct (Py.lt b a) eqn:E.
  - apply lt_true in E. apply Qgt_alt in E. now rewrite E.
  - apply lt_false in E. destruct (a ?= b) eqn:C; try reflexivity.
    apply Qgt_alt in C. lra.
Qed.

Lemma min_le_l (a b : Q) : Py.min a b <= a.
Proof.
  unfold Py.min. destruct (Py.lt b a) eqn:E; [apply lt_true in E|]; lra.
Qed.


(** ** The gates as propositions *)

Section Gates.

Context {flag : Type}.
Variables (dims : dimensions) (e h r : Q) (hf : list flag) (a : bool).

Lemma rejected_gate_true :
  rejected_gate e h hf = true <-> hf <> [] \/ e < 6.0 \/ h < 5.5.
Proof.
  unfold rejected_gate.
  rewrite !orb_true_iff, truthy_list_true, !lt_true. tauto.
Qed.

Lemma rejected_gate_false :
  rejected_gate e h hf = false <-> hf = [] /\ 6.0 <= e /\ 5.5 <= h.
Proof.
  unfold rejected_gate.
  rewrite !orb_false_iff, !lt_false.
  destruct hf; simpl; intuition congruence.
Qed.

Lemma institutional_gate_true :
  institutional_gate dims e h r hf a = true <->
  8.5 <= h /\ 8.2 <= e /\ r <= 0.40 /\ 7.5 <= score (SPEC dims)
  /\ a = false /\ hf = [].
Proof.
  unfold institutional_gate. cbv zeta.
  rewrite !andb_true_iff, !ge_true, le_true, !negb_true_iff.
  destruct hf; simpl; intuition congruence.
Qed.

Lemma pro_gate_true :
  pro_gate dims e h r a = true <->
  7.8 <= h /\ 7.6 <= e /\ r <= 0.50 /\ 7.0 <= score (SPEC dims) /\ a = false.
Proof.
  unfold pro_gate. cbv zeta.
  rewrite !andb_true_iff, !ge_true, le_true, !negb_true_iff. tauto.
Qed.

Lemma verified_gate_true :
  verified_gate dims e h r a = true <->
  7.3 <= h /\ 7.2 <= e /\ r <= 0.60 /\ 6.5 <= score (SPEC dims) /\ a = false.
Proof.
  unfold verified_gate. cbv zeta.
  rewrite !andb_true_iff, !ge_true, le_true, !negb_true_iff. tauto.
Qed.

Lemma reviewed_gate_true :
  reviewed_gate e h = true <-> 6.0 <= h /\ 6.0 <= e.
Proof. unfold reviewed_gate. rewrite andb_true_iff, !ge_true. tauto. Qed.

End Gates.


(** ** Certification classifier *)

(** C1 (rejection dominance).  Whenever the hallucination-flag list is
    non-empty, or the effective EVID is below 6.0, or the composite index
    is below 5.5, the classifier returns HK-REJECTED with an empty dict of
    obligation fields, whatever the other scores are. *)
Theorem rejection_dominance {flag : Type} (dims : dimensions)
    (evid_effective hci inferred_ratio : Q)
    (hallucination_flags : list flag) (has_absence_assertions : bool) :
  hallucination_flags <> [] \/ evid_effective < 6.0 \/ hci < 5.5 ->
  determine_certification_level dims evid_effective hci inferred_ratio
    hallucination_flags has_absence_assertions
  = (HK_REJECTED, ∅).
Proof.
  intros H. unfold determine_certification_level.
  apply rejected_gate_true in H. now rewrite H.
Qed.

Lemma rejection_dominance_witness :
  determine_certification_level all_tens 10.0 10.0 0.0 [VStr "fabricated quote"] false
  = (HK_REJECTED, ∅).
Proof.
  apply (rejection_dominance all_tens 10.0 10.0 0.0 [VStr "fabricated quote"] false).
  left. discriminate.
Defined.

(** Remaining [if]s of a goal comparing two ranks. *)
Ltac rank_cases :=
  repeat match goal with
         | |- context [if ?b then _ else _] => destruct b
         end;
  simpl; lia.

(** C4 (gate monotonicity).  Two inputs with the same SPEC score, inferred
    ratio, hallucination flags and absence boolean: if the second has an
    effective EVID and an HCI at least those of the first, its tier is at
    least the first's in the ordering
    INSTITUTIONAL > PRO > VERIFIED > REVIEWED > REJECTED. *)
Theorem gate_monotonicity {flag : Type} (dims1 dims2 : dimensions)
    (evid1 evid2 hci1 hci2 inferred_ratio : Q)
    (hallucination_flags : list flag) (has_absence_assertions : bool) :
  score (SPEC dims1) = score (SPEC dims2) ->
  evid1 <= evid2 ->
  hci1 <= hci2 ->
  (rank (determine_certification_level dims1 evid1 hci1 inferred_ratio
           hallucination_flags has_absence_assertions).1
   <= rank (determine_certification_level dims2 evid2 hci2 inferred_ratio
              hallucination_flags has_absence_assertions).1)%nat.
Proof.
  intros Hspec He Hh. unfold determine_certification_level.
  destruct (rejected_gate evid1 hci1 hallucination_flags) eqn:R1;
    [simpl; lia|].
  apply rejected_gate_false in R1 as (Hf & He1 & Hh1).
  assert (R2 : rejected_gate evid2 hci2 hallucination_flags = false)
    by (apply rejected_gate_false; repeat split; [done | lra | lra]).
  rewrite R2.
  destruct (institutional_gate dims1 _ _ _ _ _) eqn:I1.
  { apply institutional_gate_true in I1.
    assert (I2 : institutional_gate dims2 evid2 hci2 inferred_ratio
                   hallucination_flags has_absence_assertions = true)
      by (apply institutional_gate_true; rewrite <- Hspec;
          intuition (try lra)).
    rewrite I2. simpl. lia. }
  destruct (institutional_gate dims2 _ _ _ _ _); [rank_cases|].
  destruct (pro_gate dims1 _ _ _ _) eqn:P1.
  { apply pro_gate_true in P1.
    assert (P2 : pro_gate dims2 evid2 hci2 inferred_ratio
                   has_absence_assertions = true)
      by (apply pro_gate_true; rewrite <- Hspec; intuition (try lra)).
    rewrite P2. simpl. lia. }
  destruct (pro_gate dims2 _ _ _ _); [rank_cases|].
  destruct (verified_gate dims1 _ _ _ _) eqn:V1.
  { apply verified_gate_true in V1.
    assert (V2 : verified_gate dims2 evid2 hci2 inferred_ratio
                   has_absence_assertions = true)
      by (apply verified_gate_true; rewrite <- Hspec; intuition (try lra)).
    rewrite V2. simpl. lia. }
  destruct (verified_gate dims2 _ _ _ _); [rank_cases|].
  destruct (reviewed_gate evid1 hci1) eqn:W1; [|simpl; lia].
  apply reviewed_gate_true in W1.
  assert (W2 : reviewed_gate evid2 hci2 = true)
    by (apply reviewed_gate_true; intuition (try lra)).
  rewrite W2. simpl. lia.
Qed.

Lemma gate_monotonicity_witness :
  (rank (determine_certification_level all_sevens 7.0 5.8 0.3 (@nil val) false).1
   <= rank (determine_certification_level all_sevens 7.7 7.9 0.3 (@nil val) false).1)%nat.
Proof.
  apply (gate_monotonicity all_sevens all_sevens 7.0 7.7 5.8 7.9 0.3 (@nil val) false).
  - reflexivity.
  - lra.
  - lra.
Defined.

(** C9 (open question of the design notes).  The classifier with the
    [evid_effective >= 6.0] condition of the HK-REVIEWED gate deleted
    returns, on every input, the same tier and obligations as the
    classifier as written; and an input that passes the HK-REJECTED gate
    with a composite index in [5.5, 6.0) fails the four named gates below
    it and ends in the terminal default HK-REJECTED. *)
Theorem reviewed_evid_check_redundant {flag : Type} (dims : dimensions)
    (evid_effective hci inferred_ratio : Q)
    (hallucination_flags : list flag) (has_absence_assertions : bool) :
  determine_certification_level_without_evid_check dims evid_effective hci
    inferred_ratio hallucination_flags has_absence_assertions
  = determine_certification_level dims evid_effective hci inferred_ratio
      hallucination_flags has_absence_assertions
  /\ (rejected_gate evid_effective hci hallucination_flags = false ->
      5.5 <= hci < 6.0 ->
      institutional_gate dims evid_effective hci inferred_ratio
        hallucination_flags has_absence_assertions = false
      /\ pro_gate dims evid_effective hci inferred_ratio
           has_absence_assertions = false
      /\ verified_gate dims evid_effective hci inferred_ratio
           has_absence_assertions = false
      /\ reviewed_gate evid_effective hci = false
      /\ determine_certification_level dims evid_effective hci inferred_ratio
           hallucination_flags has_absence_assertions
         = (HK_REJECTED, ∅)).
Proof.
  split.
  - unfold determine_certification_level_without_evid_check,
      determine_certification_level.
    destruct (rejected_gate _ _ _) eqn:R; [reflexivity|].
    apply rejected_gate_false in R as (_ & He & _).
    apply ge_true in He.
    unfold reviewed_gate, reviewed_gate_without_evid.
    now rewrite He, andb_true_r.
  - intros R [Hlo Hhi].
    assert (I : institutional_gate dims evid_effective hci inferred_ratio
                  hallucination_flags has_absence_assertions = false).
    { apply not_true_is_false. rewrite institutional_gate_true. lra. }
    assert (P : pro_gate dims evid_effective hci inferred_ratio
                  has_absence_assertions = false).
    { apply not_true_is_false. rewrite pro_gate_true. lra. }
    assert (V : verified_gate dims evid_effective hci inferred_ratio
                  has_absence_assertions = false).
    { apply not_true_is_false. rewrite verified_gate_true. lra. }
    assert (W : reviewed_gate evid_effective hci = false).
    { apply not_true_is_false. rewrite reviewed_gate_true. lra. }
    unfold determine_certification_level. now rewrite R, I, P, V, W.
Qed.

Lemma reviewed_evid_check_redundant_witness :
  reviewed_gate 9.0 5.7 = false
  /\ determine_certification_level all_tens 9.0 5.7 0.0 (@nil val) false
     = (HK_REJECTED, ∅).
Proof.
  destruct (reviewed_evid_check_redundant all_tens 9.0 5.7 0.0 (@nil val) false)
    as [_ H].
  destruct H as (_ & _ & _ & W & D).
  - reflexivity.
  - lra.
  - exact (conj W D).
Defined.

(** ** Evidence ceiling *)

(** C2 (evidence ceiling).  The effective EVID is [min(raw, 6.5)] when the
    ratio exceeds 0.75, [min(raw, 7.2)] when it lies in (0.60, 0.75], and
    the raw score otherwise; hence it never exceeds the raw score and
    equals it whenever the ratio is at most 0.60. *)
Theorem evid_ceiling_cases (evid_raw inferred_ratio : Q) :
  let evid_effective := (apply_evid_ceiling evid_raw inferred_ratio).1 in
  (0.75 < inferred_ratio -> evid_effective = Qmin evid_raw 6.5)
  /\ (0.60 < inferred_ratio <= 0.75 -> evid_effective = Qmin evid_raw 7.2)
  /\ (~ 0.75 < inferred_ratio -> ~ 0.60 < inferred_ratio <= 0.75 ->
      evid_effective = evid_raw)
  /\ evid_effective <= evid_raw
  /\ (inferred_ratio <= 0.60 -> evid_effective = evid_raw).
Proof.
  unfold apply_evid_ceiling.
  destruct (Py.gt inferred_ratio 0.75) eqn:G1;
    [apply gt_true in G1 | apply gt_false in G1];
    [|destruct (Py.gt inferred_ratio 0.60) eqn:G2;
      [apply gt_true in G2 | apply gt_false in G2]];
    cbn [fst]; rewrite <- ?min_Qmin;
    repeat split; intros; try reflexivity; try lra; try apply min_le_l.
Qed.

Lemma evid_ceiling_cases_witness :
  (apply_evid_ceiling 9.0 0.8).1 = Qmin 9.0 6.5
  /\ (apply_evid_ceiling 9.0 0.7).1 = Qmin 9.0 7.2
  /\ (apply_evid_ceiling 9.0 0.6).1 = 9.0.
Proof.
  split; [|split].
  - apply (evid_ceiling_cases 9.0 0.8). lra.
  - apply (evid_ceiling_cases 9.0 0.7). lra.
  - apply (evid_ceiling_cases 9.0 0.6). lra.
Defined.




(** ** Rounding *)

Lemma round_half_even_comp (x y : Q) :
  x == y -> Py.round_half_even x = Py.round_half_even y.
Proof.
  intros E. unfold Py.round_half_even.
  rewrite (Qfloor_comp _ _ E).
  assert (C : Qcompare (x - inject_Z (Qfloor y)) (1 # 2)
              = Qcompare (y - inject_Z (Qfloor y)) (1 # 2))
    by now rewrite E.
  now rewrite C.
Qed.


Lemma round_comp (x y : Q) (ndigits : nat) :
  x == y -> Py.round x ndigits = Py.round y ndigits.
Proof.
  intros E. unfold Py.round. f_equal. f_equal.
  apply round_half_even_comp. now rewrite E.
Qed.


(** ** Reasoning about monadic programs *)

Lemma bind_Ok {A B} (m : M A) (f : A -> M B) (h h' : heap) (b : B) :
  (m ≫= f) h = Ok (b, h') ->
  exists a h1, m h = Ok (a, h1) /\ f a h1 = Ok (b, h').
Proof.
  unfold mbind, M_bind. destruct (m h) as [[a h1]|]; [eauto | discriminate].
Qed.

Lemma ret_Ok {A} (a b : A) (h h' : heap) :
  mret (M := M) a h = Ok (b, h') -> a = b /\ h = h'.
Proof. unfold mret, M_ret. intros [= -> ->]. auto. Qed.

Lemma lift_Ok {A} (r : result A) (h h' : heap) (a : A) :
  lift r h = Ok (a, h') -> r = Ok a /\ h = h'.
Proof. unfold lift. destruct r; intros [= -> ->]; auto. Qed.

Lemma get_heap_Ok (h h' h1 : heap) :
  get_heap h = Ok (h1, h') -> h1 = h /\ h' = h.
Proof. unfold get_heap. intros [= -> ->]. auto. Qed.

(** Split a successful run of a sequence of binds into its steps. *)
Ltac inv_run H :=
  repeat match type of H with
    | (_ ≫= _) _ = Ok _ =>
        let a := fresh "a" in
        let h := fresh "h" in
        let S := fresh "S" in
        apply bind_Ok in H as (a & h & S & H)
    | (let '(_, _) := ?p in _) _ = Ok _ =>
        let E := fresh "E" in destruct p eqn:E
    end.

Lemma bind_Ok_intro {A B} (m : M A) (f : A -> M B) (h h1 : heap) (a : A)
    (r : result (B * heap)) :
  m h = Ok (a, h1) -> f a h1 = r -> (m ≫= f) h = r.
Proof. unfold mbind, M_bind. now intros -> <-. Qed.


Section Run.

Variable json_loads : string -> result json.
Variable json_dumps : ledger_entry -> string.

(** What a completed run returns, in terms of the scoring functions. *)
Lemma run_pipeline_scores (inp : input) (env : environment)
    (ledger : option string) (h h' : heap) (o : run_output) :
  run_pipeline json_loads json_dumps inp env ledger h = Ok (o, h') ->
  out_evid_raw o = score (EVID (inp_dimensions inp))
  /\ (out_evid_effective o, out_ceiling_note o)
     = apply_evid_ceiling (out_evid_raw o) (out_inferred_ratio o)
  /\ out_hci o = compute_hci (inp_dimensions inp) (out_evid_effective o)
  /\ (out_certification_level o, out_cert_extra o)
     = determine_certification_level (inp_dimensions inp)
         (out_evid_effective o) (out_hci o) (out_inferred_ratio o)
         (inp_hallucination_flags inp) (Py.truthy_list (out_absence_flags o))
  /\ (out_ledger_entry o, out_ledger o)
     = ledger_stage json_loads json_dumps ledger (env_ledger_id env)
         (env_report_id env) (env_audit_id env) (out_certification_level o)
         (out_hci o) (out_evid_effective o) (out_inferred_ratio o)
         (inp_author_model inp) (env_now env).
Proof.
  unfold run_pipeline. intros H. inv_run H.
  apply ret_Ok in H as [<- _]. cbn. auto.
Qed.

End Run.

(** ** Composite index *)




(** ** Inferred ratio *)

Lemma eq_str_true (v : val) (s : string) : eq_str v s = true <-> v = VStr s.
Proof.
  destruct v; simpl; try (split; [discriminate | congruence]).
  rewrite String.eqb_eq. split; congruence.
Qed.

Lemma inferred_test (c : gmap string val) :
  eq_str (get c "evidence_type" (VStr "INFERRED")) "INFERRED" = true
  <-> counts_as_inferred c.
Proof.
  rewrite eq_str_true. unfold get, counts_as_inferred.
  destruct (c !! "evidence_type") as [v|]; simpl.
  - split; [intros ->; auto | intros [|]; congruence].
  - split; auto.
Qed.

(** The generator of [compute_inferred_ratio] sums to the number of
    claims that count as INFERRED. *)
Lemma inferred_sum (claims : list (gmap string val)) (acc : Q) :
  fold_left Qplus
    (flat_map (fun c =>
       if eq_str (get c "evidence_type" (VStr "INFERRED")) "INFERRED"
       then [1] else []) claims) acc
  == acc + inject_Z (Z.of_nat (inferred_count claims)).
Proof.
  revert acc. unfold inferred_count.
  induction claims as [|c claims IH]; intros acc; simpl.
  - change (inject_Z (Z.of_nat 0)) with 0. ring.
  - rewrite filter_cons.
    destruct (eq_str _ _) eqn:E.
    + apply inferred_test in E. rewrite decide_True by done.
      simpl. rewrite IH. rewrite Nat2Z.inj_succ, <- Z.add_1_r, inject_Z_plus.
      change (inject_Z 1) with 1. ring.
    + rewrite decide_False; [apply IH|].
      intros P. apply inferred_test in P. congruence.
Qed.

(** Rounding keeps a number between the integers that bound it. *)
Lemma round_half_even_between (x : Q) (lo hi : Z) :
  inject_Z lo <= x <= inject_Z hi ->
  (lo <= Py.round_half_even x <= hi)%Z.
Proof.
  intros [Hlo Hhi]. unfold Py.round_half_even.
  pose proof (Qfloor_le x) as Hf. pose proof (Qlt_floor x) as Hf'.
  assert (lo <= Qfloor x)%Z.
  { rewrite <- (Qfloor_Z lo). now apply Qfloor_resp_le. }
  assert (Qfloor x <= hi)%Z by (rewrite Zle_Qle; lra).
  assert (Hup : inject_Z (Qfloor x) < x -> (Qfloor x + 1 <= hi)%Z).
  { intros Hlt. assert (Qfloor x < hi)%Z by (rewrite Zlt_Qlt; lra). lia. }
  destruct (Qcompare (x - inject_Z (Qfloor x)) (1 # 2)) eqn:C.
  - apply Qeq_alt in C. destruct (Z.even (Qfloor x)); [lia|].
    split; [lia|]. apply Hup. lra.
  - lia.
  - apply Qgt_alt in C. split; [lia|]. apply Hup. lra.
Qed.






(** ** Absence assertions *)

Lemma append_cons (c : ascii) (s t : string) :
  (String c s ++ t)%string = String c (s ++ t)%string.
Proof. reflexivity. Qed.

Lemma prefix_spec (p s : string) :
  String.prefix p s = true <-> exists rest, s = (p ++ rest)%string.
Proof.
  revert s. induction p as [|a p IH]; intros s.
  - split; [intros _; now exists s | intros _; now destruct s].
  - destruct s as [|b s]; simpl.
    + split; [discriminate | intros [rest E]; rewrite append_cons in E; discriminate].
    + destruct (ascii_dec a b) as [->|Hne].
      * rewrite IH. split; intros [rest E]; exists rest;
          rewrite append_cons in *; congruence.
      * split; [discriminate|]. intros [rest E]. rewrite append_cons in E.
        congruence.
Qed.

Lemma str_in_spec (p s : string) : str_in p s = true <-> occurs_in p s.
Proof.
  unfold occurs_in. induction s as [|c s IH].
  - cbn [str_in]. rewrite orb_false_r, prefix_spec. split.
    + intros [rest E]. exists EmptyString, rest. exact E.
    + intros (before & after & E). destruct before; [now exists after|].
      rewrite append_cons in E. discriminate E.
  - cbn [str_in]. rewrite orb_true_iff, prefix_spec, IH. split.
    + intros [[rest E] | (before & after & E)].
      * exists EmptyString, rest. exact E.
      * exists (String c before), after. rewrite append_cons. now rewrite E.
    + intros (before & after & E). destruct before as [|c' before].
      * left. now exists after.
      * right. rewrite append_cons in E. injection E as _ E.
        now exists before, after.
Qed.

Lemma find_first {A} (f : A -> bool) (l : list A) (x : A) :
  List.find f l = Some x ->
  exists earlier later,
    l = earlier ++ x :: later /\ f x = true
    /\ Forall (fun y => f y = false) earlier.
Proof.
  induction l as [|y l IH]; simpl; [discriminate|].
  destruct (f y) eqn:E.
  - intros [= ->]. exists [], l. auto.
  - intros H. destruct (IH H) as (earlier & later & -> & Hx & Hall).
    exists (y :: earlier), later. auto.
Qed.

Lemma find_none {A} (f : A -> bool) (l : list A) :
  List.find f l = None -> Forall (fun y => f y = false) l.
Proof.
  induction l as [|y l IH]; simpl; [constructor|].
  destruct (f y) eqn:E; [discriminate|]. auto.
Qed.

Lemma first_phrase_some (t p : string) :
  first_phrase t = Some p -> first_listed p t /\ p <> EmptyString.
Proof.
  intros H. unfold first_phrase in H.
  destruct (find_first _ _ _ H) as (earlier & later & E & Hp & Hall).
  split.
  - exists earlier, later. split; [exact E|]. split; [now apply str_in_spec|].
    eapply Forall_impl; [exact Hall|]. intros q Hq Hocc.
    apply str_in_spec in Hocc. simpl in Hq. congruence.
  - apply find_some in H as [Hin _]. intros ->.
    unfold ABSENCE_PHRASES in Hin. simpl in Hin.
    intuition discriminate.
Qed.

Lemma first_phrase_none (t : string) :
  first_phrase t = None -> ~ asserts_absence t.
Proof.
  intros H (p & Hin & Hocc). apply find_none in H.
  rewrite Forall_forall in H. specialize (H p Hin).
  apply str_in_spec in Hocc. simpl in H. congruence.
Qed.

Lemma first_listed_asserts (p t : string) :
  first_listed p t -> asserts_absence t.
Proof.
  intros (earlier & later & E & Hocc & _). exists p. split; [|exact Hocc].
  rewrite E. apply elem_of_app. right. constructor.
Qed.

(** The value that [source_uri] returns is truthy exactly when one of
    the two URI fields is present and truthy. *)
Lemma source_uri_spec (h : heap) (c : gmap string val) (uri : val) :
  source_uri h c = Ok uri ->
  truthy h uri = true <-> has_source_uri h c.
Proof.
  unfold source_uri, has_source_uri, present_and_truthy, nested_uri,
    legacy_uri, get.
  destruct (truthy h (default VNone (c !! "source"))) eqn:T.
  - destruct (c !! "source") as [[| | | |l]|]; try discriminate.
    simpl. destruct (h !! l) as [[d|xs]|]; try discriminate.
    destruct (d !! "uri") as [u|] eqn:U; simpl.
    + destruct (truthy h u) eqn:Tu.
      * intros [= <-]. rewrite Tu. split; eauto.
      * intros [= <-].
        destruct (c !! "source_url") as [w|] eqn:W; simpl.
        -- split; [eauto|]. intros [(u' & [= <-] & ?) | (w' & [= <-] & ?)];
             congruence.
        -- split; [discriminate|].
           intros [(u' & [= <-] & ?) | (w' & [=] & ?)]. congruence.
    + intros [= <-].
      destruct (c !! "source_url") as [w|] eqn:W; simpl.
      * split; [eauto|]. intros [(u' & [=] & ?) | (w' & [= <-] & ?)]; done.
      * split; [discriminate|]. intros [(u' & [=] & ?) | (w' & [=] & ?)].
  - assert (N : forall u,
               match c !! "source" with
               | Some (VRef l) =>
                   match h !! l with
                   | Some (ODict d) => d !! "uri"
                   | _ => None
                   end
               | _ => None
               end = Some u -> False).
    { destruct (c !! "source") as [[| | | |l]|]; try done.
      simpl in T. destruct (h !! l) as [[d|xs]|]; try done.
      intros u Hu. apply negb_false_iff, bool_decide_eq_true in T.
      apply map_size_empty_iff in T. subst d. by rewrite lookup_empty in Hu. }
    simpl. intros [= <-].
    destruct (c !! "source_url") as [w|] eqn:W; simpl.
    + split; [eauto|]. intros [(u' & Hu & ?) | (w' & [= <-] & ?)];
        [by apply N in Hu | done].
    + split; [discriminate|]. intros [(u' & Hu & ?) | (w' & [=] & ?)].
      by apply N in Hu.
Qed.


(** Whatever one iteration of the detector returns is the expected
    outcome for its claim. *)
Lemma detect_claim_spec (h : heap) (c : gmap string val)
    (o : option absence_flag) :
  detect_claim h c = Ok o -> flag_outcome h c o.
Proof.
  unfold detect_claim, text_lower, flag_outcome.
  destruct (get c "text" (VStr EmptyString)) as [| | |s|]; try discriminate.
  destruct (first_phrase (lower s)) as [p|] eqn:F.
  - destruct (first_phrase_some _ _ F) as [Hfirst Hne].
    apply String.eqb_neq in Hne. rewrite Hne.
    destruct (source_uri h c) as [uri|] eqn:Huri; [|discriminate].
    pose proof (source_uri_spec _ _ _ Huri) as Htruthy.
    destruct (truthy h uri) eqn:T; simpl; intros [= <-].
    + exists s. split; [reflexivity|].
      split; [|discriminate]. split; [intros [? [=]]|].
      intros [_ Hno]. exfalso. apply Hno. now apply Htruthy.
    + exists s. split; [reflexivity|]. split.
      * split; [|eauto]. intros _. split.
        -- eapply first_listed_asserts, Hfirst.
        -- intros Hu. apply Htruthy in Hu. congruence.
      * intros f [= <-]. simpl. auto.
  - intros [= <-]. exists s. split; [reflexivity|].
    split; [|discriminate]. split; [intros [? [=]]|].
    intros [Habs _]. exfalso. eapply first_phrase_none; eauto.
Qed.




Example detector_scenario :
  detect_absence_assertions detector_heap detector_claims
  = Ok [ {| claim_id := VStr "CLM-001";
            flag_type := "ABSENCE_ASSERTION";
            matched_phrase := "no public audit";
            detail := "Claim asserts absence of evidence but provides no source URI." |} ].
Proof. vm_compute. reflexivity. Qed.

(** ** Ledger *)



Lemma last_default {A} (l : list A) (d : A) :
  l <> [] -> last l = Some (List.last l d).
Proof.
  induction l as [|x l IH]; [done|]. intros _.
  destruct l as [|y l]; [reflexivity|].
  change (last (x :: y :: l)) with (last (y :: l)).
  change (List.last (x :: y :: l) d) with (List.last (y :: l) d).
  now apply IH.
Qed.

Section LedgerProperties.

Variable json_loads : string -> result json.
Variable json_dumps : ledger_entry -> string.

Lemma entry_id_of_line_Ok (line : string) (v : json) :
  entry_id_of_line json_loads line = Ok v <-> yields_entry_id json_loads line v.
Proof.
  unfold entry_id_of_line, yields_entry_id, getitem. split.
  - destruct (json_loads line) as [[| | | | |m]|]; try discriminate.
    destruct (m !! "entry_id") eqn:E; [|discriminate].
    intros [= ->]. eauto.
  - intros (m & -> & ->). reflexivity.
Qed.


Lemma read_prev_id_line (text line : string) :
  last_line text = Some line ->
  read_prev_id json_loads (Some text)
  = match entry_id_of_line json_loads line with
    | Ok v => v
    | Raise _ => JNull
    end.
Proof.
  unfold last_line, read_prev_id.
  destruct (splitlines (strip text)) as [|l ls] eqn:E; [discriminate|].
  intros H. rewrite (last_default (l :: ls) EmptyString) in H by done.
  injection H as <-. reflexivity.
Qed.



End LedgerProperties.



(** ** What the run does to the loaded objects *)

Lemma contains_Ok (c : val) (k : string) (h h' : heap) (b : bool) :
  contains c k h = Ok (b, h') ->
  h' = h
  /\ forall l d, c = VRef l -> h !! l = Some (ODict d) ->
                 b = bool_decide (is_Some (d !! k)).
Proof.
  unfold contains. destruct c as [| | |s|l]; try discriminate.
  - intros [= <- <-]. split; [reflexivity|]. discriminate.
  - destruct (h !! l) as [[d|xs]|] eqn:E; try discriminate.
    + intros [= <- <-]. split; [reflexivity|].
      intros l0 d0 [= <-] Hd. rewrite E in Hd. now injection Hd as <-.
    + intros [= <- <-]. split; [reflexivity|].
      intros l0 d0 [= <-] Hd. rewrite E in Hd. discriminate.
Qed.

Lemma setitem_Ok (c : val) (k : string) (v : val) (h h' : heap) (u : unit) :
  setitem c k v h = Ok (u, h') ->
  exists l d, c = VRef l /\ h !! l = Some (ODict d)
              /\ h' = <[l := ODict (<[k := v]> d)]> h.
Proof.
  unfold setitem. destruct c as [| | | |l]; try discriminate.
  destruct (h !! l) as [[d|xs]|] eqn:E; try discriminate.
  intros [= <-]. eauto.
Qed.

(** The normaliser changes nothing but claim dicts without identifier,
    to which it adds the sequential one. *)
Lemma assign_claim_ids_frame (claims : list val) (i : nat) (h h' : heap)
    (u : unit) :
  assign_claim_ids i claims h = Ok (u, h') ->
  forall l,
    h' !! l = h !! l
    \/ exists d j,
         h !! l = Some (ODict d)
         /\ d !! "claim_id" = None
         /\ claims !! j = Some (VRef l)
         /\ h' !! l = Some (ODict (<["claim_id" := VStr (clm_id (i + j))]> d)).
Proof.
  revert i h. induction claims as [|c claims IH]; intros i h H l.
  - apply ret_Ok in H as [_ <-]. now left.
  - cbn [assign_claim_ids] in H. inv_run H.
    apply contains_Ok in S as [-> Hpresent].
    destruct a; cbn [negb] in S0.
    + apply ret_Ok in S0 as [_ <-].
      destruct (IH _ _ H l) as [E | (d & j & Hd & Hnone & Hj & E)]; [now left|].
      right. exists d, (S j). rewrite <- Nat.add_succ_comm. auto.
    + apply setitem_Ok in S0 as (lc & dc & -> & Hlc & ->).
      specialize (Hpresent lc dc eq_refl Hlc). symmetry in Hpresent.
      apply bool_decide_eq_false in Hpresent.
      rewrite <- eq_None_not_Some in Hpresent.
      destruct (decide (l = lc)) as [->|Hne].
      * right. exists dc, 0%nat. rewrite Nat.add_0_r.
        repeat split; [done | done |].
        destruct (IH _ _ H lc) as [E | (d & j & Hd & Hnone & _)].
        -- now rewrite E, lookup_insert_eq.
        -- rewrite lookup_insert_eq in Hd. injection Hd as <-.
           by rewrite lookup_insert_eq in Hnone.
      * destruct (IH _ _ H l) as [E | (d & j & Hd & Hnone & Hj & E)].
        -- left. now rewrite E, lookup_insert_ne.
        -- right. exists d, (S j). rewrite lookup_insert_ne in Hd by done.
           rewrite <- Nat.add_succ_comm. auto.
Qed.

(** Reading the claim dicts changes nothing. *)
Lemma mapM_as_dict_heap (claims : list val) (h h' : heap)
    (cs : list (gmap string val)) :
  mapM as_dict claims h = Ok (cs, h') -> h' = h.
Proof.
  revert h h' cs. induction claims as [|c claims IH]; intros h h' cs H.
  - now apply ret_Ok in H as [_ <-].
  - cbn [mapM] in H. inv_run H. apply ret_Ok in H as [_ <-].
    apply IH in S0 as ->.
    unfold as_dict in S. destruct c as [| | | |l]; try discriminate.
    destruct (h !! l) as [[d|xs]|]; try discriminate. now injection S as _ <-.
Qed.

Lemma as_list_Ok (v : val) (h h' : heap) (xs : list val) :
  as_list v h = Ok (xs, h') ->
  h' = h /\ exists l, v = VRef l /\ h !! l = Some (OList xs).
Proof.
  unfold as_list. destruct v as [| | | |l]; try discriminate.
  destruct (h !! l) as [[d|ys]|] eqn:E; try discriminate.
  intros [= <- <-]. eauto.
Qed.

Lemma alloc_Ok (o : obj) (h h' : heap) (l : loc) :
  alloc o h = Ok (l, h') -> h !! l = None /\ h' = <[l := o]> h.
Proof.
  unfold alloc. intros [= <- <-]. split; [|reflexivity].
  apply not_elem_of_dom, is_fresh.
Qed.

Lemma append_Ok (l : loc) (v : val) (h h' : heap) (u : unit) :
  append l v h = Ok (u, h') ->
  exists xs, h !! l = Some (OList xs) /\ h' = <[l := OList (xs ++ [v])]> h.
Proof.
  unfold append. destruct (h !! l) as [[d|xs]|] eqn:E; try discriminate.
  intros [= <-]. eauto.
Qed.

Lemma as_dict_Ok (v : val) (h h' : heap) (d : gmap string val) :
  as_dict v h = Ok (d, h') ->
  h' = h /\ exists l, v = VRef l /\ h !! l = Some (ODict d).
Proof.
  unfold as_dict. destruct v as [| | | |l]; try discriminate.
  destruct (h !! l) as [[d'|xs]|] eqn:E; try discriminate.
  intros [= <- <-]. eauto.
Qed.

Lemma iter_Ok (v : val) (h h' : heap) (xs : list val) :
  iter v h = Ok (xs, h') -> h' = h.
Proof.
  unfold iter. destruct v as [| | |s|l]; try discriminate.
  - now intros [= _ <-].
  - destruct (h !! l) as [[d|ys]|]; try discriminate; now intros [= _ <-].
Qed.

Lemma slice_Ok (v : val) (n : nat) (h h' : heap) (w : val) :
  slice v n h = Ok (w, h') -> h ⊆ h'.
Proof.
  unfold slice. destruct v as [| | |s|l]; try discriminate.
  - now intros [= _ <-].
  - destruct (h !! l) as [[d|ys]|]; try discriminate.
    intros [= _ <-]. apply insert_subseteq, not_elem_of_dom, is_fresh.
Qed.

(** Building one entry leaves every existing object as it is; the
    entry's flag list is a new object, a copy of the claim's. *)
Lemma build_evidence_entry_frame (ids : list val) (now : string) (i : nat)
    (claim : val) (h h' : heap) (e : evidence_entry) :
  build_evidence_entry ids now i claim h = Ok (e, h') ->
  h ⊆ h' /\ flags_copied h h' claim e.
Proof.
  unfold build_evidence_entry. intros H. inv_run H.
  apply as_dict_Ok in S as [-> (lc & -> & Hlc)].
  apply get_heap_Ok in S0 as [-> ->].
  assert (h2 = h
          /\ forall l0 xs, a !! "claim_flags" = Some (VRef l0) ->
                           h !! l0 = Some (OList xs) -> a1 = xs)
    as [-> Hitems].
  { unfold get in S1.
    destruct (truthy h _) eqn:T.
    - split; [now apply iter_Ok in S1|]. intros l0 xs Hf Hl0.
      rewrite Hf in S1. simpl in S1. unfold iter in S1. rewrite Hl0 in S1.
      now injection S1 as <-.
    - apply ret_Ok in S1 as [<- <-]. split; [reflexivity|].
      intros l0 xs Hf Hl0. rewrite Hf in T. simpl in T. rewrite Hl0 in T.
      now destruct xs. }
  apply alloc_Ok in S2 as [Hfresh ->].
  apply lift_Ok in S3 as [_ <-].
  assert (Hh5 : h ⊆ h5
                /\ exists derived,
                     h5 !! a2 = Some (OList (a1 ++ derived))
                     /\ (derived = [] \/ derived = [VStr "ABSENCE_ASSERTION"])).
  { destruct a3.
    - apply append_Ok in S4 as (xs & Hxs & ->).
      rewrite lookup_insert_eq in Hxs. injection Hxs as <-.
      rewrite insert_insert_eq. split; [now apply insert_subseteq|].
      eexists. rewrite lookup_insert_eq. eauto.
    - apply ret_Ok in S4 as [_ <-]. split; [now apply insert_subseteq|].
      exists []. rewrite lookup_insert_eq, app_nil_r. eauto. }
  destruct Hh5 as [Hh5 (derived & Hlf & Hderived)].
  apply get_heap_Ok in S5 as [-> ->].
  assert (Hh7 : h5 ⊆ h7).
  { destruct (truthy h5 _).
    - now apply ret_Ok in S6 as [_ <-].
    - inv_run S6. apply ret_Ok in S6 as [_ <-].
      repeat match goal with
             | X : slice _ _ _ = Ok _ |- _ => apply slice_Ok in X
             | X : alloc _ _ = Ok _ |- _ => apply alloc_Ok in X as [? ->]
             end.
      etrans; [eassumption|]. now apply insert_subseteq. }
  apply ret_Ok in H as [<- <-]. split; [by etrans|].
  exists a2, a1, derived. split; [reflexivity|]. split; [exact Hfresh|].
  split; [eapply lookup_weaken; eauto|]. split; [exact Hderived|].
  intros lc' c l0 xs [= <-] Hc Hf Hl0. rewrite Hlc in Hc. injection Hc as <-.
  eauto.
Qed.

(** [flags_copied] from a larger heap before to a smaller heap after. *)
Lemma flags_copied_weaken (h0 h1 h2 h3 : heap) (claim : val)
    (e : evidence_entry) :
  h0 ⊆ h1 -> h2 ⊆ h3 -> flags_copied h1 h2 claim e -> flags_copied h0 h3 claim e.
Proof.
  intros H01 H23 (lf & items & derived & He & Hnone & Hlf & Hd & Hitems).
  exists lf, items, derived. split; [exact He|].
  split; [eapply lookup_weaken_None; eauto|].
  split; [eapply lookup_weaken; eauto|]. split; [exact Hd|].
  intros lc c l0 xs -> Hc Hf Hl0.
  eapply Hitems; [reflexivity | | exact Hf |]; eapply lookup_weaken; eauto.
Qed.

Lemma build_evidence_entries_frame (ids : list val) (now : string)
    (claims : list val) (i : nat) (h h' : heap) (es : list evidence_entry) :
  build_evidence_entries ids now i claims h = Ok (es, h') ->
  h ⊆ h' /\ Forall2 (flags_copied h h') claims es.
Proof.
  revert i h es. induction claims as [|c claims IH]; intros i h es H.
  - apply ret_Ok in H as [<- <-]. split; [done | constructor].
  - cbn [build_evidence_entries] in H. inv_run H.
    apply ret_Ok in H as [<- <-].
    apply build_evidence_entry_frame in S as [Hsub Hnew].
    apply IH in S0 as [Hsub' Hall].
    split; [by etrans|]. constructor.
    + eapply flags_copied_weaken; [reflexivity | exact Hsub' | exact Hnew].
    + eapply Forall2_impl; [exact Hall|]. intros c' e' Hc.
      eapply flags_copied_weaken; [exact Hsub | reflexivity | exact Hc].
Qed.

(** C10 as the specification states it fails: the claim record loaded
    at address 2 has no identifier, and the run writes one into it. *)
Lemma claim_record_mutated_counterexample :
  exists o h',
    run_pipeline no_loads no_dumps one_claim_input sample_env None one_claim_heap
    = Ok (o, h')
    /\ one_claim_heap !! 2%positive = Some (ODict one_claim)
    /\ h' !! 2%positive
       = Some (ODict (<["claim_id" := VStr "CLM-001"]> one_claim))
    /\ h' !! 2%positive <> one_claim_heap !! 2%positive.
Proof.
  eexists _, _. split; [vm_compute; reflexivity|].
  split; [reflexivity|]. split; [vm_compute; reflexivity|].
  intros E. vm_compute in E. discriminate E.
Qed.

(** C10, amended.  A completed run leaves every object of the loaded
    input as it was, but for this: a claim of the claim list that has no
    [claim_id] gets the sequential one.  Hence no field that a loaded
    claim record has (its evidence classification, its confidence, its
    flag list) is changed or removed.  The flag list of the output
    evidence entry of each claim is a list created by the run, not an
    object of the input: it holds the claim's own flags, followed by the
    derived flag when there is one. *)
Theorem loaded_claims_frame
    (json_loads : string -> result json) (json_dumps : ledger_entry -> string)
    (inp : input) (env : environment) (ledger : option string)
    (h h' : heap) (o : run_output) :
  run_pipeline json_loads json_dumps inp env ledger h = Ok (o, h') ->
  exists lc claims,
    inp_claims inp = VRef lc /\ h !! lc = Some (OList claims)
    /\ (forall l, is_Some (h !! l) ->
          h' !! l = h !! l \/ id_assigned claims l (h !! l) (h' !! l))
    /\ (forall l d k v,
          h !! l = Some (ODict d) -> d !! k = Some v ->
          exists d', h' !! l = Some (ODict d') /\ d' !! k = Some v)
    /\ Forall2 (flags_copied h h') claims (evidence_entries (out_evidence o)).
Proof.
  unfold run_pipeline. intros H. inv_run H.
  apply ret_Ok in H as [<- ->].
  match goal with
  | X : lift (title_of _) _ = Ok _ |- _ => apply lift_Ok in X as [_ ->]
  end.
  apply as_list_Ok in S as [-> (lc & Hlc & Hclaims)].
  pose proof (assign_claim_ids_frame _ _ _ _ _ S0) as Hassign.
  apply mapM_as_dict_heap in S1 as ->.
  apply get_heap_Ok in S2 as [-> ->].
  apply lift_Ok in S3 as [_ <-]. apply lift_Ok in S4 as [_ <-].
  unfold build_evidence_json in S5. inv_run S5.
  apply ret_Ok in S5 as [<- ->].
  match goal with
  | X : build_evidence_entries _ _ _ _ _ = Ok _ |- _ =>
      apply build_evidence_entries_frame in X as [Hsub Hnew]
  end.
  assert (Hframe : forall x, is_Some (h !! x) ->
            h' !! x = h !! x \/ id_assigned a x (h !! x) (h' !! x)).
  { intros x [ob Hob].
    destruct (Hassign x) as [Heq | (d & j & Hd & Hnone & Hj & Heq)].
    - left. rewrite <- Heq. rewrite Hob in Heq.
      rewrite Heq. eapply lookup_weaken; eauto.
    - right. exists d, j. repeat split; try done.
      eapply lookup_weaken; eauto. }
  exists lc, a. split; [done|]. split; [done|]. split; [exact Hframe|]. split.
  - intros x d k v Hd Hk.
    destruct (Hframe x) as [Heq | (d0 & j & Hd0 & Hnone & _ & Heq)]; [eauto| |].
    + exists d. now rewrite Heq.
    + rewrite Hd in Hd0. injection Hd0 as <-.
      eexists. split; [exact Heq|]. rewrite lookup_insert_ne; [done|].
      intros <-. congruence.
  - cbn. eapply Forall2_impl; [exact Hnew|].
    intros claim e (lf & items & derived & He & Hnone & Hlf & Hd & Hitems).
    exists lf, items, derived. split; [exact He|]. split.
    { destruct (Hassign lf) as [Heq | (d & j & _ & _ & _ & Heq)].
      - now rewrite <- Heq.
      - rewrite Heq in Hnone. discriminate. }
    split; [exact Hlf|]. split; [exact Hd|].
    intros lc0 dc l0 xs -> Hc Hf Hl0.
    assert (Hl0' : h1 !! l0 = Some (OList xs)).
    { destruct (Hassign l0) as [Heq | (d & j & Hd0 & _)]; [now rewrite Heq|].
      rewrite Hl0 in Hd0. discriminate. }
    destruct (Hassign lc0) as [Heq | (d & j & Hd0 & Hno & _ & Heq)].
    + eapply Hitems; [reflexivity | | exact Hf | exact Hl0'].
      now rewrite Heq.
    + rewrite Hc in Hd0. injection Hd0 as <-.
      eapply Hitems; [reflexivity | exact Heq | | exact Hl0'].
      rewrite lookup_insert_ne; [exact Hf|]. intros Hkey.
      rewrite <- Hkey in Hf. congruence.
Qed.

(** The derived flag of the claim of [one_claim_heap] is in the list at
    the new address 3; the claim itself has no flag list. *)
Example derived_flag_scenario :
  exists o h',
    run_pipeline no_loads no_dumps one_claim_input sample_env None one_claim_heap
    = Ok (o, h')
    /\ entry_claim_flags <$> evidence_entries (out_evidence o) = [VRef 3%positive]
    /\ h' !! 3%positive = Some (OList [VStr "ABSENCE_ASSERTION"])
    /\ (exists d', h' !! 2%positive = Some (ODict d')
                   /\ d' !! "claim_flags" = None).
Proof.
  eexists _, _. split; [vm_compute; reflexivity|].
  split; [vm_compute; reflexivity|]. split; [vm_compute; reflexivity|].
  eexists. split; vm_compute; reflexivity.
Qed.

(** The claim of [one_claim_heap] keeps its three fields and gets
    [CLM-001]; its entry's flag list is a new list. *)
Lemma loaded_claims_frame_witness :
  exists o h',
    run_pipeline no_loads no_dumps one_claim_input sample_env None one_claim_heap
    = Ok (o, h')
    /\ (exists d', h' !! 2%positive = Some (ODict d')
                   /\ d' !! "confidence" = Some (VNum 0.9))
    /\ Forall2 (flags_copied one_claim_heap h') [VRef 2%positive]
         (evidence_entries (out_evidence o)).
Proof.
  eexists _, _. split; [vm_compute; reflexivity|].
  destruct (loaded_claims_frame no_loads no_dumps one_claim_input sample_env
              None one_claim_heap _ _ ltac:(vm_compute; reflexivity))
    as (lc & claims & [= <-] & [= <-] & _ & Hfields & Hnew).
  split; [|exact Hnew].
  apply (Hfields 2%positive one_claim "confidence" (VNum 0.9)); reflexivity.
Defined.

(** * Further properties *)

(** ** The classifier: exact conditions, thresholds, obligations *)

Section ClassifierFacts.

Context {flag : Type}.
Variables (dims : dimensions) (e h r : Q) (hf : list flag) (a : bool).

(** A report is rejected exactly when it has a hallucination flag, or an
    effective EVID below 6.0, or an HCI below 6.0: the gate at 5.5 and the
    terminal default together reject every HCI below 6.0. *)
Theorem rejected_iff :
  (determine_certification_level dims e h r hf a).1 = HK_REJECTED
  <-> hf <> [] \/ e < 6.0 \/ h < 6.0.
Proof.
  unfold determine_certification_level.
  destruct (rejected_gate e h hf) eqn:R.
  { apply rejected_gate_true in R. simpl. split; [intros _|done].
    destruct R as [?|[?|?]]; [auto | auto | right; right; lra]. }
  apply rejected_gate_false in R as (Hf & He & Hh).
  destruct (institutional_gate dims e h r hf a) eqn:I.
  { apply institutional_gate_true in I. simpl. split; [done|].
    intros [?|[?|?]]; [done | lra | lra]. }
  destruct (pro_gate dims e h r a) eqn:P.
  { apply pro_gate_true in P. simpl. split; [done|].
    intros [?|[?|?]]; [done | lra | lra]. }
  destruct (verified_gate dims e h r a) eqn:V.
  { apply verified_gate_true in V. simpl. split; [done|].
    intros [?|[?|?]]; [done | lra | lra]. }
  destruct (reviewed_gate e h) eqn:W.
  { apply reviewed_gate_true in W. simpl. split; [done|].
    intros [?|[?|?]]; [done | lra | lra]. }
  simpl. split; [intros _|done]. right. right.
  apply Qnot_le_lt. intros Hge.
  assert (reviewed_gate e h = true) by (apply reviewed_gate_true; split; lra).
  congruence.
Qed.

(** What each level guarantees: the thresholds of its own gate, and no
    hallucination flag. *)
Theorem level_thresholds :
  let level := (determine_certification_level dims e h r hf a).1 in
  (level = HK_INSTITUTIONAL ->
   8.5 <= h /\ 8.2 <= e /\ r <= 0.40 /\ 7.5 <= score (SPEC dims)
   /\ a = false /\ hf = [])
  /\ (level = HK_PRO ->
      7.8 <= h /\ 7.6 <= e /\ r <= 0.50 /\ 7.0 <= score (SPEC dims)
      /\ a = false /\ hf = [])
  /\ (level = HK_VERIFIED ->
      7.3 <= h /\ 7.2 <= e /\ r <= 0.60 /\ 6.5 <= score (SPEC dims)
      /\ a = false /\ hf = [])
  /\ (level = HK_REVIEWED -> 6.0 <= h /\ 6.0 <= e /\ hf = []).
Proof.
  unfold determine_certification_level.
  destruct (rejected_gate e h hf) eqn:R; [simpl; intuition congruence|].
  apply rejected_gate_false in R as (Hf & He & Hh).
  destruct (institutional_gate dims e h r hf a) eqn:I.
  { apply institutional_gate_true in I. simpl.
    intuition congruence. }
  destruct (pro_gate dims e h r a) eqn:P.
  { apply pro_gate_true in P. simpl.
    intuition congruence. }
  destruct (verified_gate dims e h r a) eqn:V.
  { apply verified_gate_true in V. simpl.
    intuition congruence. }
  destruct (reviewed_gate e h) eqn:W.
  { apply reviewed_gate_true in W. simpl.
    intuition congruence. }
  simpl. intuition congruence.
Qed.

(** The obligation fields are those of the level: the two-reviews field
    for HK-INSTITUTIONAL, the second-review field for HK-PRO, none for
    the three other levels. *)
Theorem obligations_of_level :
  (determine_certification_level dims e h r hf a).2
  = match (determine_certification_level dims e h r hf a).1 with
    | HK_INSTITUTIONAL => {[ "institutional_requires_two_reviews" := true ]}
    | HK_PRO => {[ "pro_requires_second_review" := true ]}
    | _ => ∅
    end.
Proof.
  unfold determine_certification_level.
  repeat match goal with
         | |- context [if ?b then _ else _] => destruct b
         end; reflexivity.
Qed.

End ClassifierFacts.

Lemma rejected_iff_witness :
  (determine_certification_level all_tens 10.0 5.9 0.0 (@nil val) false).1
  = HK_REJECTED.
Proof.
  apply (rejected_iff all_tens 10.0 5.9 0.0 (@nil val) false).
  right. right. lra.
Defined.

Lemma level_thresholds_witness :
  7.3 <= 7.4 /\ 7.2 <= 7.25 /\ 0.55 <= 0.60 /\ 6.5 <= score (SPEC all_sevens)
  /\ false = false /\ @nil val = [].
Proof.
  apply (level_thresholds all_sevens 7.25 7.4 0.55 (@nil val) false).
  vm_compute. reflexivity.
Defined.

(** ** Monotonicity of the scoring steps *)

Lemma round_half_even_floor (x : Q) :
  (Qfloor x <= Py.round_half_even x <= Qfloor x + 1)%Z.
Proof.
  unfold Py.round_half_even.
  destruct (Qcompare _ _); [destruct (Z.even _)| |]; lia.
Qed.

Lemma round_half_even_mono (x y : Q) :
  x <= y -> (Py.round_half_even x <= Py.round_half_even y)%Z.
Proof.
  intros Hxy. pose proof (Qfloor_resp_le _ _ Hxy) as Hf.
  destruct (Z.eq_dec (Qfloor x) (Qfloor y)) as [E|Hne].
  - unfold Py.round_half_even. rewrite <- E.
    destruct (Qcompare (x - inject_Z (Qfloor x)) (1 # 2)) eqn:Cx;
      destruct (Qcompare (y - inject_Z (Qfloor x)) (1 # 2)) eqn:Cy;
      try (destruct (Z.even (Qfloor x))); try lia;
      repeat match goal with
             | C : Qcompare _ _ = Eq |- _ => apply Qeq_alt in C
             | C : Qcompare _ _ = Lt |- _ => apply Qlt_alt in C
             | C : Qcompare _ _ = Gt |- _ => apply Qgt_alt in C
             end;
      exfalso; lra.
  - pose proof (round_half_even_floor x). pose proof (round_half_even_floor y).
    lia.
Qed.

Lemma pow10_pos (n : nat) : 0 < inject_Z (Py.pow10 n).
Proof.
  change 0 with (inject_Z 0). rewrite <- Zlt_Qlt. unfold Py.pow10.
  apply Z.pow_pos_nonneg; lia.
Qed.

(** [round] is monotone. *)
Lemma round_mono (x y : Q) (ndigits : nat) :
  x <= y -> Py.round x ndigits <= Py.round y ndigits.
Proof.
  intros Hxy. unfold Py.round. pose proof (pow10_pos ndigits) as Hp.
  apply Qmult_le_compat_r.
  - rewrite <- Zle_Qle. apply round_half_even_mono.
    apply Qmult_le_compat_r; [exact Hxy | lra].
  - apply Qinv_le_0_compat. lra.
Qed.

(** Turn the boolean comparisons among the hypotheses into inequalities. *)
Ltac cmp_props :=
  repeat match goal with
         | H : Py.lt _ _ = true |- _ => apply lt_true in H
         | H : Py.lt _ _ = false |- _ => apply lt_false in H
         | H : Py.gt _ _ = true |- _ => apply gt_true in H
         | H : Py.gt _ _ = false |- _ => apply gt_false in H
         | H : Py.ge _ _ = true |- _ => apply ge_true in H
         | H : Py.ge _ _ = false |- _ => apply ge_false in H
         | H : Py.le _ _ = true |- _ => apply le_true in H
         end.

Lemma min_mono (a b c d : Q) : a <= b -> c <= d -> Py.min a c <= Py.min b d.
Proof.
  intros Hab Hcd. unfold Py.min.
  destruct (Py.lt c a) eqn:E1; destruct (Py.lt d b) eqn:E2; cmp_props; lra.
Qed.

(** The ceiling is monotone in the raw score and antitone in the ratio. *)
Lemma ceiling_mono (raw1 raw2 ratio1 ratio2 : Q) :
  raw1 <= raw2 -> ratio2 <= ratio1 ->
  (apply_evid_ceiling raw1 ratio1).1 <= (apply_evid_ceiling raw2 ratio2).1.
Proof.
  intros Hraw Hratio. unfold apply_evid_ceiling.
  destruct (Py.gt ratio1 0.75) eqn:A1; destruct (Py.gt ratio2 0.75) eqn:A2;
    try destruct (Py.gt ratio1 0.60) eqn:B1;
    try destruct (Py.gt ratio2 0.60) eqn:B2;
    cmp_props; cbn [fst]; try lra;
    try (apply min_mono; lra);
    try (apply Qle_trans with raw1; [apply min_le_l | lra]).
Qed.

Lemma hci_mono (dims1 dims2 : dimensions) (e1 e2 : Q) :
  e1 <= e2 ->
  score (MECH dims1) <= score (MECH dims2) ->
  score (INC dims1) <= score (INC dims2) ->
  score (RISK dims1) <= score (RISK dims2) ->
  score (SPEC dims1) <= score (SPEC dims2) ->
  compute_hci dims1 e1 <= compute_hci dims2 e2.
Proof.
  intros. unfold compute_hci. apply round_mono.
  unfold Py.sum, Py.len. cbn [fold_left length].
  apply Qmult_le_compat_r; [lra|]. apply Qinv_le_0_compat.
  change (inject_Z (Z.of_nat 5)) with 5. lra.
Qed.

(** The classifier is monotone in the three scores it reads and antitone
    in the ratio, the flags and the absence boolean. *)
Lemma classifier_mono {flag1 flag2 : Type} (dims1 dims2 : dimensions)
    (e1 e2 h1 h2 r1 r2 : Q) (hf1 : list flag1) (hf2 : list flag2)
    (a1 a2 : bool) :
  score (SPEC dims1) <= score (SPEC dims2) ->
  e1 <= e2 -> h1 <= h2 -> r2 <= r1 ->
  (hf1 = [] -> hf2 = []) -> (a1 = false -> a2 = false) ->
  (rank (determine_certification_level dims1 e1 h1 r1 hf1 a1).1
   <= rank (determine_certification_level dims2 e2 h2 r2 hf2 a2).1)%nat.
Proof.
  intros Hs He Hh Hr Hhf Ha. unfold determine_certification_level.
  destruct (rejected_gate e1 h1 hf1) eqn:R1; [simpl; lia|].
  apply rejected_gate_false in R1 as (Hf & He1 & Hh1).
  assert (R2 : rejected_gate e2 h2 hf2 = false)
    by (apply rejected_gate_false; repeat split; [auto | lra | lra]).
  rewrite R2.
  destruct (institutional_gate dims1 _ _ _ _ _) eqn:I1.
  { apply institutional_gate_true in I1.
    assert (I2 : institutional_gate dims2 e2 h2 r2 hf2 a2 = true)
      by (apply institutional_gate_true; intuition (try lra)).
    rewrite I2. simpl. lia. }
  destruct (institutional_gate dims2 _ _ _ _ _); [rank_cases|].
  destruct (pro_gate dims1 _ _ _ _) eqn:P1.
  { apply pro_gate_true in P1.
    assert (P2 : pro_gate dims2 e2 h2 r2 a2 = true)
      by (apply pro_gate_true; intuition (try lra)).
    rewrite P2. simpl. lia. }
  destruct (pro_gate dims2 _ _ _ _); [rank_cases|].
  destruct (verified_gate dims1 _ _ _ _) eqn:V1.
  { apply verified_gate_true in V1.
    assert (V2 : verified_gate dims2 e2 h2 r2 a2 = true)
      by (apply verified_gate_true; intuition (try lra)).
    rewrite V2. simpl. lia. }
  destruct (verified_gate dims2 _ _ _ _); [rank_cases|].
  destruct (reviewed_gate e1 h1) eqn:W1; [|simpl; lia].
  apply reviewed_gate_true in W1.
  assert (W2 : reviewed_gate e2 h2 = true)
    by (apply reviewed_gate_true; intuition (try lra)).
  rewrite W2. simpl. lia.
Qed.

(** The three results of [scoring_steps], by name. *)
Lemma scoring_steps_eq {flag : Type} (dims : dimensions) (ratio : Q)
    (hf : list flag) (a : bool) :
  scoring_steps dims ratio hf a
  = let eff := (apply_evid_ceiling (score (EVID dims)) ratio).1 in
    (eff, compute_hci dims eff,
     determine_certification_level dims eff (compute_hci dims eff) ratio hf a).
Proof.
  unfold scoring_steps. now destruct (apply_evid_ceiling _ _).
Qed.

(** Better scores never give a lower level: if every dimension score of
    the second set is at least that of the first, with the same claims
    and flags, then the effective EVID, the HCI and the level are at
    least those of the first. *)
Theorem scoring_monotone {flag : Type} (dims1 dims2 : dimensions) (ratio : Q)
    (hf : list flag) (a : bool) :
  scores_le dims1 dims2 ->
  let s1 := scoring_steps dims1 ratio hf a in
  let s2 := scoring_steps dims2 ratio hf a in
  s1.1.1 <= s2.1.1 /\ s1.1.2 <= s2.1.2 /\ (rank s1.2.1 <= rank s2.2.1)%nat.
Proof.
  intros (He & Hm & Hi & Hr & Hs). cbv zeta. rewrite !scoring_steps_eq.
  cbv zeta. cbn [fst snd].
  assert (Heff : (apply_evid_ceiling (score (EVID dims1)) ratio).1
                 <= (apply_evid_ceiling (score (EVID dims2)) ratio).1)
    by (apply ceiling_mono; lra).
  assert (Hhci := hci_mono dims1 dims2 _ _ Heff Hm Hi Hr Hs).
  split; [exact Heff|]. split; [exact Hhci|].
  apply classifier_mono; auto. lra.
Qed.

Lemma scoring_monotone_witness :
  (rank (level_of all_sevens 0.3 (@nil val) false)
   <= rank (level_of all_tens 0.3 (@nil val) false))%nat.
Proof.
  apply (scoring_monotone all_sevens all_tens 0.3 (@nil val) false).
  unfold scores_le. simpl. lra.
Defined.

(** More inferred claims never give a higher level: with the same scores
    and flags, a larger inferred ratio gives an effective EVID, an HCI
    and a level that are at most those of the smaller ratio. *)
Theorem scoring_antitone_in_ratio {flag : Type} (dims : dimensions)
    (ratio1 ratio2 : Q) (hf : list flag) (a : bool) :
  ratio1 <= ratio2 ->
  let s1 := scoring_steps dims ratio1 hf a in
  let s2 := scoring_steps dims ratio2 hf a in
  s2.1.1 <= s1.1.1 /\ s2.1.2 <= s1.1.2 /\ (rank s2.2.1 <= rank s1.2.1)%nat.
Proof.
  intros Hr. cbv zeta. rewrite !scoring_steps_eq. cbv zeta. cbn [fst snd].
  assert (Heff : (apply_evid_ceiling (score (EVID dims)) ratio2).1
                 <= (apply_evid_ceiling (score (EVID dims)) ratio1).1)
    by (apply ceiling_mono; lra).
  assert (Hhci := hci_mono dims dims _ _ Heff ltac:(lra) ltac:(lra)
                    ltac:(lra) ltac:(lra)).
  split; [exact Heff|]. split; [exact Hhci|].
  apply classifier_mono; auto. lra.
Qed.

Lemma scoring_antitone_in_ratio_witness :
  (rank (level_of all_tens 0.8 (@nil val) false)
   <= rank (level_of all_tens 0.3 (@nil val) false))%nat.
Proof.
  apply (scoring_antitone_in_ratio all_tens 0.3 0.8 (@nil val) false). lra.
Defined.

(** ** The ceiling and the HCI: bounds *)

(** The ceiling note is absent exactly when the ratio is at most 0.60; a
    capped score is at most its cap; an effective score below the raw
    score comes with a note; and the adjuster is idempotent: applied to
    its own result it returns the same pair. *)
Theorem ceiling_facts (evid_raw inferred_ratio : Q) :
  let evid_effective := (apply_evid_ceiling evid_raw inferred_ratio).1 in
  let note := (apply_evid_ceiling evid_raw inferred_ratio).2 in
  (note = None <-> inferred_ratio <= 0.60)
  /\ (0.75 < inferred_ratio -> evid_effective <= 6.5)
  /\ (0.60 < inferred_ratio -> evid_effective <= 7.2)
  /\ (evid_effective < evid_raw -> note <> None)
  /\ apply_evid_ceiling evid_effective inferred_ratio = (evid_effective, note).
Proof.
  unfold apply_evid_ceiling, Py.min.
  destruct (Py.gt inferred_ratio 0.75) eqn:A;
    [|destruct (Py.gt inferred_ratio 0.60) eqn:B];
    try destruct (Py.lt _ evid_raw) eqn:L; cbn [fst snd]; cmp_props;
    repeat split; intros; try discriminate; try lra; try reflexivity;
    try (destruct (Py.lt _ _) eqn:L2; cmp_props; [exfalso; lra | reflexivity]).
Qed.

Lemma ceiling_facts_witness :
  (apply_evid_ceiling 9.0 0.8).1 <= 6.5
  /\ (apply_evid_ceiling 9.0 0.8).2 <> None.
Proof.
  split.
  - apply (ceiling_facts 9.0 0.8). lra.
  - apply (ceiling_facts 9.0 0.8). vm_compute. reflexivity.
Defined.

(** The HCI stays within the range of the five scores it averages: if
    they all lie between two bounds given in hundredths, so does the HCI.
    In particular scores between 0 and 10 give an HCI between 0 and 10. *)
Theorem hci_within (dims : dimensions) (evid_effective : Q) (lo hi : Z) :
  let inside x := inject_Z lo / 100 <= x <= inject_Z hi / 100 in
  inside evid_effective -> inside (score (MECH dims)) ->
  inside (score (INC dims)) -> inside (score (RISK dims)) ->
  inside (score (SPEC dims)) ->
  inside (compute_hci dims evid_effective).
Proof.
  intros inside He Hm Hi Hr Hs. unfold inside in *.
  unfold compute_hci, Py.round. change (inject_Z (Py.pow10 2)) with 100.
  unfold Py.sum, Py.len. cbn [fold_left length].
  change (inject_Z (Z.of_nat 5)) with 5.
  set (m := (0 + evid_effective + score (MECH dims) + score (INC dims)
             + score (RISK dims) + score (SPEC dims)) / 5).
  assert (Hlo : inject_Z lo / 100 == inject_Z lo * (1 # 100)) by field.
  assert (Hhi : inject_Z hi / 100 == inject_Z hi * (1 # 100)) by field.
  rewrite Hlo, Hhi in *.
  assert (Hm5 : m == (0 + evid_effective + score (MECH dims) + score (INC dims)
                      + score (RISK dims) + score (SPEC dims)) * (1 # 5))
    by (unfold m; field).
  destruct (round_half_even_between (m * 100) lo hi) as [Hk1 Hk2]; [lra|].
  rewrite Zle_Qle in Hk1, Hk2.
  set (k := inject_Z (Py.round_half_even (m * 100))) in *.
  assert (E : k / 100 == k * (1 # 100)) by field.
  rewrite E. lra.
Qed.

Lemma hci_within_witness :
  inject_Z 0 / 100 <= compute_hci all_sevens 6.5 <= inject_Z 1000 / 100.
Proof.
  apply (hci_within all_sevens 6.5 0 1000); vm_compute; split; discriminate.
Defined.

(** ** The ledger as a chain *)

Lemma append_nil_r (s : string) : (s ++ EmptyString)%string = s.
Proof. induction s as [|c s IH]; [reflexivity|]. now rewrite append_cons, IH. Qed.

Lemma append_assoc (s t u : string) :
  ((s ++ t) ++ u)%string = (s ++ (t ++ u))%string.
Proof.
  induction s as [|c s IH]; [reflexivity|]. now rewrite !append_cons, IH.
Qed.

Lemma rev_app_append (s t u : string) :
  String.rev_app s (t ++ u)%string = (String.rev_app s t ++ u)%string.
Proof.
  revert t. induction s as [|c s IH]; intros t; [reflexivity|].
  cbn [String.rev_app]. now rewrite <- IH, append_cons.
Qed.

Lemma rev_app_rev (s t : string) :
  String.rev_app s t = (String.rev s ++ t)%string.
Proof. unfold String.rev. now rewrite <- rev_app_append. Qed.

Lemma rev_append (s t : string) :
  String.rev (s ++ t)%string = (String.rev t ++ String.rev s)%string.
Proof.
  induction s as [|c s IH].
  - now rewrite append_nil_r.
  - rewrite append_cons. unfold String.rev at 1 3. cbn [String.rev_app].
    rewrite !rev_app_rev, IH, append_assoc. reflexivity.
Qed.

Lemma rev_involutive (s : string) : String.rev (String.rev s) = s.
Proof.
  induction s as [|c s IH]; [reflexivity|].
  unfold String.rev at 2. cbn [String.rev_app]. rewrite rev_app_rev.
  rewrite rev_append, IH. reflexivity.
Qed.

Lemma lstrip_solid (s : string) : starts_solid s = true -> lstrip s = s.
Proof.
  destruct s as [|c s]; [discriminate|]. simpl.
  now intros ->%negb_true_iff.
Qed.

Lemma lstrip_append_solid (a b : string) :
  starts_solid b = true -> lstrip (a ++ b)%string = (lstrip a ++ b)%string.
Proof.
  intros Hb. induction a as [|c a IH]; [now apply lstrip_solid|].
  rewrite append_cons. cbn [lstrip].
  destruct (is_space c); [exact IH | now rewrite append_cons].
Qed.

Lemma lstrip_terminated (text : string) :
  terminated text -> terminated (lstrip text).
Proof.
  intros [->|[t ->]]; [now left|].
  induction t as [|c t IH]; [now left|].
  rewrite append_cons. cbn [lstrip].
  destruct (is_space c); [exact IH|].
  right. exists (String c t). now rewrite append_cons.
Qed.

(** A text without line boundary is one line. *)
Lemma splitlines_from_one_line (after_cr : bool) (acc line : string) :
  has_linebreak line = false ->
  splitlines_from after_cr acc line
  = match String.rev_app line acc with
    | EmptyString => []
    | s => [String.rev s]
    end.
Proof.
  revert after_cr acc. induction line as [|c line IH]; intros after_cr acc H.
  - now destruct acc.
  - cbn [has_linebreak] in H. apply orb_false_iff in H as [Hc Hline].
    cbn [splitlines_from String.rev_app]. rewrite Hc.
    assert (Ascii.eqb c "010" = false) as ->.
    { destruct (Ascii.eqb c "010") eqn:E; [|reflexivity].
      apply Ascii.eqb_eq in E. subst c. discriminate Hc. }
    rewrite andb_false_r. now apply IH.
Qed.

(** After a text that ends with a line feed, a one-line text is the last
    line. *)
Lemma last_splitlines_from (t line : string) (after_cr : bool) (acc : string) :
  (after_cr = true -> acc = EmptyString) ->
  has_linebreak line = false -> line <> EmptyString ->
  last (splitlines_from after_cr acc (t ++ String "010" line)%string)
  = Some line.
Proof.
  intros Hinv Hline Hne.
  assert (Hone : forall b, splitlines_from b EmptyString line = [line]).
  { intros b. rewrite splitlines_from_one_line by done.
    rewrite rev_app_rev, append_nil_r.
    destruct (String.rev line) eqn:E.
    - apply (f_equal String.rev) in E. rewrite rev_involutive in E. done.
    - now rewrite <- E, rev_involutive. }
  revert after_cr acc Hinv. induction t as [|c t IH]; intros after_cr acc Hinv.
  - change (EmptyString ++ String "010" line)%string with (String "010" line).
    cbn [splitlines_from]. destruct after_cr.
    + rewrite (Hinv eq_refl). cbn. now rewrite Hone.
    + cbn. now rewrite Hone.
  - rewrite append_cons. cbn [splitlines_from].
    destruct (after_cr && Ascii.eqb c "010") eqn:E.
    + apply andb_true_iff in E as [-> _]. rewrite (Hinv eq_refl).
      now apply IH.
    + destruct (is_linebreak c).
      * rewrite last_cons, IH; [reflexivity|done].
      * apply IH. discriminate.
Qed.

Lemma starts_solid_nonempty (s : string) :
  starts_solid s = true -> s <> EmptyString.
Proof. now destruct s. Qed.

(** The last line of a terminated text followed by one more line. *)
Lemma last_line_appended (old line : string) :
  terminated old -> one_line line ->
  last_line (old ++ line ++ String "010" EmptyString)%string = Some line.
Proof.
  intros Hold (Hbreak & Hfirst & Hlast). unfold last_line, strip.
  assert (Hsolid : starts_solid (line ++ String "010" EmptyString)%string = true).
  { destruct line; [discriminate|]. exact Hfirst. }
  rewrite (lstrip_append_solid _ _ Hsolid), <- append_assoc.
  unfold rstrip. rewrite rev_append.
  change (String.rev (String "010" EmptyString)) with (String "010" EmptyString).
  rewrite append_cons. cbn [lstrip]. change (is_space "010") with true.
  cbv iota.
  change (EmptyString ++ String.rev (lstrip old ++ line))%string
    with (String.rev (lstrip old ++ line)%string).
  rewrite lstrip_solid.
  2:{ rewrite rev_append. destruct (String.rev line); [discriminate|].
      exact Hlast. }
  rewrite rev_involutive.
  pose proof (starts_solid_nonempty _ Hfirst) as Hne.
  destruct (lstrip_terminated _ Hold) as [->|[t ->]].
  - change (EmptyString ++ line)%string with line. unfold splitlines.
    rewrite splitlines_from_one_line by done.
    rewrite rev_app_rev, append_nil_r.
    destruct (String.rev line) eqn:E.
    + apply (f_equal String.rev) in E. rewrite rev_involutive in E. done.
    + now rewrite <- E, rev_involutive.
  - rewrite append_assoc. change (String "010" EmptyString ++ line)%string
      with (String "010" line).
    unfold splitlines. now apply last_splitlines_from.
Qed.

Lemma terminated_appended (old line : string) :
  terminated (old ++ line ++ String "010" EmptyString)%string.
Proof. right. exists (old ++ line)%string. now rewrite append_assoc. Qed.

(** The fields of the entry that [ledger_stage] builds, and the text it
    leaves. *)
Lemma ledger_stage_fields
    (json_loads : string -> result json) (json_dumps : ledger_entry -> string)
    (ledger : option string) (ledger_id report_id audit_id : string)
    (level : cert_level) (hci evid ratio : Q) (author now : string)
    (entry : ledger_entry) (text : string) :
  ledger_stage json_loads json_dumps ledger ledger_id report_id audit_id
    level hci evid ratio author now = (entry, text) ->
  prev_entry_id entry = read_prev_id json_loads ledger
  /\ entry_id entry = ledger_id
  /\ text = (default EmptyString ledger ++ json_dumps entry
             ++ String "010" EmptyString)%string.
Proof. unfold ledger_stage. intros [= <- <-]. repeat split. Qed.

(** Ledger chain integrity.  Two completed runs, the second on the ledger
    that the first has left: if the ledger before the first run was
    missing, empty or ended with a line feed, and [json.dumps] writes the
    first entry as one line that [json.loads] reads back to an object with
    the identifier [v], then the second entry's [prev_entry_id] is [v];
    the first entry's identifier is the one drawn for it, and the ledger
    it leaves ends with a line feed again. *)
Theorem ledger_chain
    (json_loads : string -> result json) (json_dumps : ledger_entry -> string)
    (inp1 inp2 : input) (env1 env2 : environment) (ledger : option string)
    (h1 h1' h2 h2' : heap) (o1 o2 : run_output) (v : json) :
  run_pipeline json_loads json_dumps inp1 env1 ledger h1 = Ok (o1, h1') ->
  run_pipeline json_loads json_dumps inp2 env2 (Some (out_ledger o1)) h2
  = Ok (o2, h2') ->
  terminated (default EmptyString ledger) ->
  one_line (json_dumps (out_ledger_entry o1)) ->
  yields_entry_id json_loads (json_dumps (out_ledger_entry o1)) v ->
  prev_entry_id (out_ledger_entry o2) = v
  /\ entry_id (out_ledger_entry o1) = env_ledger_id env1
  /\ terminated (out_ledger o1).
Proof.
  intros R1 R2 Hterm Hline Hv.
  pose proof (run_pipeline_scores _ _ _ _ _ _ _ _ R1) as (_ & _ & _ & _ & L1).
  pose proof (run_pipeline_scores _ _ _ _ _ _ _ _ R2) as (_ & _ & _ & _ & L2).
  symmetry in L1, L2.
  apply ledger_stage_fields in L1 as (_ & Hid1 & Hledger1).
  apply ledger_stage_fields in L2 as (Hprev2 & _ & _).
  split; [|split].
  - rewrite Hprev2, Hledger1.
    rewrite (read_prev_id_line _ _ _ (last_line_appended _ _ Hterm Hline)).
    apply entry_id_of_line_Ok in Hv. now rewrite Hv.
  - exact Hid1.
  - rewrite Hledger1. apply terminated_appended.
Qed.

Lemma ledger_chain_witness :
  exists o1 o2 h1' h2',
    run_pipeline brace_loads brace_dumps (no_claims_input all_tens) sample_env
      None no_claims_heap = Ok (o1, h1')
    /\ run_pipeline brace_loads brace_dumps one_claim_input sample_env
         (Some (out_ledger o1)) one_claim_heap = Ok (o2, h2')
    /\ prev_entry_id (out_ledger_entry o2) = JStr (entry_id (out_ledger_entry o1)).
Proof.
  eexists _, _, _, _.
  split; [vm_compute; reflexivity|]. split; [vm_compute; reflexivity|].
  eapply (ledger_chain brace_loads brace_dumps (no_claims_input all_tens)
            one_claim_input sample_env sample_env None no_claims_heap _
            one_claim_heap _ _ _ _
            ltac:(vm_compute; reflexivity) ltac:(vm_compute; reflexivity)).
  - now left.
  - repeat split; vm_compute; reflexivity.
  - eexists. split; vm_compute; reflexivity.
Defined.

(** ** The batch runner *)

Lemma sum_of_counts_lookup (m : gmap string nat) (k : string) :
  sum_of_counts m = (default 0 (m !! k) + sum_of_counts (delete k m))%nat.
Proof.
  unfold sum_of_counts. destruct (m !! k) as [n|] eqn:E; simpl.
  - rewrite <- (insert_delete_id m k n E) at 1.
    rewrite map_fold_insert_L; [reflexivity | intros; lia |].
    apply lookup_delete_eq.
  - now rewrite delete_id.
Qed.

Lemma sum_of_counts_count_level (m : gmap string nat) (k : string) :
  sum_of_counts (count_level k m) = S (sum_of_counts m).
Proof.
  rewrite (sum_of_counts_lookup (count_level k m) k).
  rewrite (sum_of_counts_lookup m k). unfold count_level.
  rewrite lookup_insert_eq, delete_insert_eq. simpl. lia.
Qed.

Lemma count_level_lookup (m : gmap string nat) (k level : string) :
  default 0%nat (count_level k m !! level)
  = (default 0 (m !! level) + (if decide (k = level) then 1 else 0))%nat.
Proof.
  unfold count_level. destruct (decide (k = level)) as [->|Hne].
  - now rewrite lookup_insert_eq.
  - rewrite lookup_insert_ne by done. lia.
Qed.

Section BatchProperties.

Variable json_loads : string -> result json.
Variable json_dumps : ledger_entry -> string.
Variable str_exc : exn -> string.

Lemma batch_step_shape (f : batch_file) (ledger : option string) :
  shaped (batch_step json_loads json_dumps str_exc f ledger).1.
Proof.
  unfold shaped, batch_step.
  destruct (run_pipeline_file _ _ _ _) as [[o h']|e]; simpl; [right | left];
    eauto 10.
Qed.

End BatchProperties.

Section BatchSummary.

Variable json_loads : string -> result json.
Variable json_dumps : ledger_entry -> string.
Variable str_exc : exn -> string.

(** What one step of the loop does to the ledger: nothing when the run
    raises, one appended entry when it completes. *)
Lemma batch_step_ledger (f : batch_file) (ledger : option string) :
  let '(r, ledger') := batch_step json_loads json_dumps str_exc f ledger in
  (rec_hci r = None /\ ledger' = ledger)
  \/ (rec_hci r <> None
      /\ exists e, ledger' = append_entry json_dumps ledger e
                   /\ ledger_report_id e = rec_report_id r
                   /\ entry_id e = env_ledger_id (file_env f)
                   /\ prev_entry_id e = read_prev_id json_loads ledger).
Proof.
  unfold batch_step, run_pipeline_file.
  destruct (file_loaded f) as [[inp h]|e]; [|left; auto].
  destruct (run_pipeline _ _ _ _ _ _) as [[o h']|e] eqn:R; [|left; auto].
  right. split; [discriminate|].
  pose proof (run_pipeline_scores _ _ _ _ _ _ _ _ R) as (_ & _ & _ & _ & L).
  pose proof L as L'. symmetry in L'.
  apply ledger_stage_fields in L' as (Hprev & Hid & Htext).
  exists (out_ledger_entry o). unfold append_entry. rewrite <- Htext.
  repeat split; try done.
  unfold ledger_stage in L. injection L as -> _. cbn.
  unfold run_pipeline in R. inv_run R. now apply ret_Ok in R as [<- _].
Qed.

(** The loop, with its accumulators: it adds one record per file, counts
    the level of each, and appends to the ledger one entry per completed
    run. *)
Lemma batch_loop_spec (files : list batch_file) (recs : list run_record)
    (counts : gmap string nat) (ledger : option string)
    (recs' : list run_record) (counts' : gmap string nat)
    (ledger' : option string) :
  batch_loop json_loads json_dumps str_exc files recs counts ledger
  = (recs', counts', ledger') ->
  exists new entries,
    recs' = recs ++ new
    /\ Forall2 (fun f r => rec_run_id r = file_stem f
                           /\ rec_input_file r = file_name f) files new
    /\ Forall shaped new
    /\ (forall level,
          default 0%nat (counts' !! level)
          = (default 0 (counts !! level)
             + length (filter (fun r => rec_certification_level r = level) new))%nat)
    /\ sum_of_counts counts' = (sum_of_counts counts + length files)%nat
    /\ ledger' = fold_left (append_entry json_dumps) entries ledger
    /\ ledger_report_id <$> entries = rec_report_id <$> filter completed new.
Proof.
  revert recs counts ledger.
  induction files as [|f files IH]; intros recs counts ledger H.
  - injection H as <- <- <-. exists [], []. rewrite app_nil_r.
    repeat split; try constructor; try (simpl; lia).
  - cbn [batch_loop] in H.
    pose proof (batch_step_shape json_loads json_dumps str_exc f ledger) as Hshape.
    pose proof (batch_step_ledger f ledger) as Hledger.
    assert (Hid : rec_run_id (batch_step json_loads json_dumps str_exc f ledger).1
                  = file_stem f
                  /\ rec_input_file (batch_step json_loads json_dumps str_exc f ledger).1
                     = file_name f).
    { unfold batch_step. destruct (match run_pipeline_file _ _ _ _ with
                                   | Ok _ => _ | Raise _ => _ end). auto. }
    destruct (batch_step json_loads json_dumps str_exc f ledger) as [r ledger1].
    cbn [fst] in Hshape, Hid.
    destruct (IH _ _ _ H) as (new & entries & -> & Hfiles & Hall & Hcount & Hsum
                              & Hled & Hrep).
    destruct Hledger as [[Hnone ->] | [Hsome (e & -> & He & _)]].
    + exists (r :: new), entries. rewrite <- app_assoc.
      split; [reflexivity|]. split; [now constructor|].
      split; [now constructor|]. split; [|split; [|split]].
      * intros level. rewrite Hcount, count_level_lookup, filter_cons.
        destruct (decide (rec_certification_level r = level)); simpl; lia.
      * rewrite Hsum, sum_of_counts_count_level. simpl. lia.
      * exact Hled.
      * rewrite filter_cons, decide_False; [exact Hrep|].
        unfold completed. now intros ?.
    + exists (r :: new), (e :: entries). rewrite <- app_assoc.
      split; [reflexivity|]. split; [now constructor|].
      split; [now constructor|]. split; [|split; [|split]].
      * intros level. rewrite Hcount, count_level_lookup, filter_cons.
        destruct (decide (rec_certification_level r = level)); simpl; lia.
      * rewrite Hsum, sum_of_counts_count_level. simpl. lia.
      * exact Hled.
      * rewrite filter_cons, decide_True by done.
        now rewrite !fmap_cons, He, Hrep.
Qed.

End BatchSummary.

Lemma sum_fold_right (xs : list Q) (acc : Q) :
  fold_left Qplus xs acc == acc + fold_right Qplus 0 xs.
Proof.
  revert acc. induction xs as [|x xs IH]; intros acc; simpl; [ring|].
  rewrite IH. ring.
Qed.

(** On records that have the number, [average] is the rounded mean. *)
Lemma average_Some (field : run_record -> option Q) (ndigits : nat)
    (valid : list run_record) :
  Forall (fun r => is_Some (field r)) valid ->
  average field ndigits valid
  = Ok (match omap field valid with
        | [] => None
        | xs => Some (Py.round (mean xs) ndigits)
        end).
Proof.
  intros Hall. unfold average.
  assert (Hmap : mapM field valid = Some (omap field valid)
                 /\ length (omap field valid) = length valid).
  { assert (F : Forall2 (fun r x => field r = Some x) valid (omap field valid)).
    { induction Hall as [|r valid [x Hx] _ IH]; [constructor|].
      simpl. rewrite Hx. now constructor. }
    split; [now apply mapM_Some_2|]. symmetry. eapply Forall2_length, F. }
  destruct Hmap as [-> Hlen].
  destruct valid as [|r valid]; [reflexivity|]. cbn [Py.truthy_list].
  destruct (omap field (r :: valid)) as [|x xs] eqn:E; [discriminate|].
  do 2 f_equal. apply round_comp. unfold mean, Py.sum, Py.len.
  rewrite sum_fold_right, Hlen. now rewrite Qplus_0_l.
Qed.

Section BatchTheorems.

Variable json_loads : string -> result json.
Variable json_dumps : ledger_entry -> string.
Variable str_exc : exn -> string.

Lemma shaped_valid (rs : list run_record) :
  Forall shaped rs ->
  Forall (fun r => is_Some (rec_hci r) /\ is_Some (rec_evid_effective r)
                   /\ is_Some (rec_inferred_ratio r))
    (filter (fun r => rec_hci r <> None) rs).
Proof.
  intros Hall. apply Forall_forall. intros r Hr.
  apply list_elem_of_filter in Hr as [Hhci Hin].
  rewrite Forall_forall in Hall.
  destruct (Hall r Hin) as [(_ & Hnone & _) | (_ & H1 & H2 & H3)]; done.
Qed.

(** What [run_batch] returns, spelled out. *)
Lemma run_batch_eq (files : list batch_file) (ledger : option string) :
  files <> [] ->
  exists new entries counts,
    let valid := filter completed new in
    run_batch json_loads json_dumps str_exc files ledger
    = (Done {| total_runs := length new;
               counts_by_level := counts;
               avg_hci := match omap rec_hci valid with
                          | [] => None
                          | xs => Some (Py.round (mean xs) 3)
                          end;
               avg_evid_effective :=
                 match omap rec_evid_effective valid with
                 | [] => None
                 | xs => Some (Py.round (mean xs) 3)
                 end;
               avg_inferred_ratio :=
                 match omap rec_inferred_ratio valid with
                 | [] => None
                 | xs => Some (Py.round (mean xs) 4)
                 end;
               runs := new |},
       fold_left (append_entry json_dumps) entries ledger)
    /\ Forall2 (fun f r => rec_run_id r = file_stem f
                           /\ rec_input_file r = file_name f) files new
    /\ Forall shaped new
    /\ (forall level,
          default 0%nat (counts !! level)
          = length (filter (fun r => rec_certification_level r = level) new))
    /\ sum_of_counts counts = length files
    /\ ledger_report_id <$> entries = rec_report_id <$> valid.
Proof.
  intros Hne. unfold run_batch.
  destruct files as [|f files]; [done|]. cbn [Py.truthy_list negb].
  destruct (batch_loop _ _ _ (f :: files) [] ∅ ledger)
    as [[recs counts] ledger'] eqn:L.
  apply batch_loop_spec in L
    as (new & entries & -> & Hfiles & Hall & Hcount & Hsum & -> & Hrep).
  cbn [app]. exists new, entries, counts.
  pose proof (shaped_valid new Hall) as Hvalid.
  rewrite !average_Some;
    try (eapply Forall_impl; [exact Hvalid|]; intros r (? & ? & ?); done).
  repeat split; done.
Qed.

End BatchTheorems.

Section BatchResults.

Variable json_loads : string -> result json.
Variable json_dumps : ledger_entry -> string.
Variable str_exc : exn -> string.

(** The batch never stops at a failing run.  Without input files it
    exits with code 1 and leaves the ledger alone; otherwise it returns a
    summary with one record per file, in order, under the file's stem and
    name, whatever the runs do.  The counts by level add up to the number
    of runs, and the count of a level is the number of records of that
    level (ERROR for the runs that raised). *)
Theorem batch_counts (files : list batch_file) (ledger : option string) :
  (files = [] ->
   run_batch json_loads json_dumps str_exc files ledger = (Exited 1, ledger))
  /\ (files <> [] ->
      exists s ledger',
        run_batch json_loads json_dumps str_exc files ledger = (Done s, ledger')
        /\ total_runs s = length files
        /\ Forall2 (fun f r => rec_run_id r = file_stem f
                               /\ rec_input_file r = file_name f)
             files (runs s)
        /\ sum_of_counts (counts_by_level s) = total_runs s
        /\ forall level,
             default 0%nat (counts_by_level s !! level)
             = length (filter (fun r => rec_certification_level r = level)
                         (runs s))).
Proof.
  split; [now intros ->|]. intros Hne.
  destruct (run_batch_eq json_loads json_dumps str_exc files ledger Hne)
    as (new & entries & counts & -> & Hfiles & _ & Hcount & Hsum & _).
  eexists _, _. split; [reflexivity|]. cbn.
  pose proof (Forall2_length _ _ _ Hfiles) as Hlen.
  repeat split; try done. congruence.
Qed.


End BatchResults.

Lemma batch_counts_witness :
  exists s ledger',
    run_batch sample_loads no_dumps sample_str_exc sample_batch None
    = (Done s, ledger')
    /\ total_runs s = 3%nat
    /\ sum_of_counts (counts_by_level s) = total_runs s.
Proof.
  destruct (proj2 (batch_counts sample_loads no_dumps sample_str_exc
                     sample_batch None) ltac:(discriminate))
    as (s & ledger' & E & Htotal & _ & Hsum & _).
  exists s, ledger'. split; [exact E|]. split; [exact Htotal | exact Hsum].
Defined.


Example batch_scenario :
  exists s ledger',
    run_batch sample_loads no_dumps sample_str_exc sample_batch None
    = (Done s, ledger')
    /\ rec_certification_level <$> runs s
       = [ "HK-REVIEWED"; "ERROR"; "HK-REVIEWED" ]%string
    /\ counts_by_level s !! "ERROR"%string = Some 1%nat
    /\ counts_by_level s !! "HK-REVIEWED"%string = Some 2%nat.
Proof.
  eexists _, _. split; [vm_compute; reflexivity|].
  repeat split; vm_compute; reflexivity.
Qed.

(** What a batch does to the ledger: it appends one entry, as one line,
    for each run that completed, in the order of the files, and nothing
    for a run that raised; the entries bear the report identifiers of the
    completed records.  The text it found is kept as it was. *)
Theorem batch_ledger
    (json_loads : string -> result json) (json_dumps : ledger_entry -> string)
    (str_exc : exn -> string) (files : list batch_file)
    (ledger ledger' : option string) (s : summary) :
  run_batch json_loads json_dumps str_exc files ledger = (Done s, ledger') ->
  exists entries,
    ledger' = fold_left (append_entry json_dumps) entries ledger
    /\ ledger_report_id <$> entries
       = rec_report_id <$> filter completed (runs s)
    /\ (Forall (fun r => rec_hci r = None) (runs s) -> ledger' = ledger).
Proof.
  intros H.
  assert (Hne : files <> []) by (intros ->; discriminate H).
  destruct (run_batch_eq json_loads json_dumps str_exc files ledger Hne)
    as (new & entries & counts & E & _ & _ & _ & _ & Hrep).
  cbv zeta in E. rewrite E in H. injection H as <- <-.
  exists entries. cbn [runs]. split; [reflexivity|]. split; [exact Hrep|].
  intros Hnone.
  assert (filter completed new = []) as F.
  { destruct (filter completed new) as [|r rs] eqn:F; [reflexivity|]. exfalso.
    assert (Hr : r ∈ filter completed new) by (rewrite F; left).
    apply list_elem_of_filter in Hr as [Hc Hin].
    rewrite Forall_forall in Hnone. apply Hc, Hnone, Hin. }
  rewrite F in Hrep. destruct entries; [reflexivity | discriminate].
Qed.

Lemma batch_ledger_witness :
  exists s ledger' entries,
    run_batch brace_loads brace_dumps sample_str_exc sample_batch None
    = (Done s, ledger')
    /\ ledger' = fold_left (append_entry brace_dumps) entries None
    /\ length entries = 2%nat.
Proof.
  destruct (batch_ledger brace_loads brace_dumps sample_str_exc sample_batch
              None _ _ ltac:(vm_compute; reflexivity))
    as (entries & Hled & Hrep & _).
  eexists _, _, entries. split; [vm_compute; reflexivity|].
  split; [exact Hled|].
  apply (f_equal length) in Hrep. rewrite !length_fmap in Hrep.
  rewrite Hrep. vm_compute. reflexivity.
Defined.

(** ** More on the inferred ratio and the detector *)

Lemma inferred_ratio_eq (claims : list (gmap string val)) :
  claims <> [] ->
  compute_inferred_ratio claims
  = Py.round (inject_Z (Z.of_nat (inferred_count claims))
              / inject_Z (Z.of_nat (length claims))) 4.
Proof.
  intros Hne. unfold compute_inferred_ratio.
  destruct claims as [|c claims]; [done|]. cbn [Py.truthy_list negb].
  apply round_comp. unfold Py.sum, Py.len.
  rewrite inferred_sum. now rewrite Qplus_0_l.
Qed.

(** The inferred ratio does not depend on the order of the claims. *)
Theorem inferred_ratio_order_free (claims claims' : list (gmap string val)) :
  claims ≡ₚ claims' ->
  compute_inferred_ratio claims = compute_inferred_ratio claims'.
Proof.
  intros Hperm. destruct claims as [|c claims].
  - apply Permutation_nil_l in Hperm. now subst.
  - destruct claims' as [|c' claims'].
    { apply Permutation_nil_r in Hperm. discriminate. }
    rewrite !inferred_ratio_eq by done. unfold inferred_count.
    now rewrite Hperm.
Qed.

Lemma inferred_ratio_order_free_witness :
  compute_inferred_ratio three_claims
  = compute_inferred_ratio (rev three_claims).
Proof.
  apply (inferred_ratio_order_free three_claims (rev three_claims)).
  apply Permutation_rev.
Defined.

(** The extremes of the inferred ratio on a non-empty list: 1 when every
    claim counts as INFERRED, 0 when none does. *)
Theorem inferred_ratio_extremes (claims : list (gmap string val)) :
  claims <> [] ->
  (Forall counts_as_inferred claims -> compute_inferred_ratio claims == 1)
  /\ (Forall (fun c => ~ counts_as_inferred c) claims ->
      compute_inferred_ratio claims == 0).
Proof.
  intros Hne. rewrite inferred_ratio_eq by done. unfold inferred_count.
  assert (Hlen : 0 < inject_Z (Z.of_nat (length claims))).
  { change 0 with (inject_Z 0). rewrite <- Zlt_Qlt.
    destruct claims; [done | simpl; lia]. }
  split; intros Hall.
  - assert (filter counts_as_inferred claims = claims) as ->.
    { clear Hne Hlen. induction Hall as [|c claims Hc _ IH]; [done|].
      now rewrite filter_cons, decide_True, IH. }
    rewrite (round_comp _ 1) by (field; lra). reflexivity.
  - assert (filter counts_as_inferred claims = []) as ->.
    { clear Hne Hlen. induction Hall as [|c claims Hc _ IH]; [done|].
      now rewrite filter_cons, decide_False. }
    rewrite (round_comp _ 0) by (simpl; field; lra). reflexivity.
Qed.

Lemma inferred_ratio_extremes_witness :
  compute_inferred_ratio [ {[ "text" := VStr "Profits will rise." ]} ] == 1.
Proof.
  apply (inferred_ratio_extremes [ {[ "text" := VStr "Profits will rise." ]} ]).
  - discriminate.
  - repeat constructor.
Defined.

(** The detector works claim by claim: on two lists one after the other
    it returns the flags of the first followed by those of the second,
    and it raises when it raises on one of them. *)
Theorem detector_append (h : heap) (claims1 claims2 : list (gmap string val)) :
  detect_absence_assertions h (claims1 ++ claims2)
  = match detect_absence_assertions h claims1 with
    | Raise e => Raise e
    | Ok flags1 =>
        match detect_absence_assertions h claims2 with
        | Raise e => Raise e
        | Ok flags2 => Ok (flags1 ++ flags2)
        end
    end.
Proof.
  induction claims1 as [|c claims1 IH].
  - simpl. now destruct (detect_absence_assertions h claims2).
  - cbn [app detect_absence_assertions]. rewrite IH.
    destruct (detect_claim h c); [|reflexivity].
    destruct (detect_absence_assertions h claims1); [|reflexivity].
    destruct (detect_absence_assertions h claims2); [|reflexivity].
    now rewrite app_assoc.
Qed.

(** There is at most one flag per claim. *)
Lemma detect_length (h : heap) (claims : list (gmap string val))
    (flags : list absence_flag) :
  detect_absence_assertions h claims = Ok flags ->
  (length flags <= length claims)%nat.
Proof.
  revert flags. induction claims as [|c claims IH]; intros flags H.
  - now injection H as <-.
  - cbn [detect_absence_assertions] in H.
    destruct (detect_claim h c) as [o|]; [|discriminate].
    destruct (detect_absence_assertions h claims) as [rest|]; [|discriminate].
    injection H as <-. specialize (IH rest eq_refl).
    rewrite length_app. destruct o; simpl; lia.
Qed.

Lemma detect_claim_case (h : heap) (c1 c2 : gmap string val) :
  same_but_case c1 c2 -> detect_claim h c1 = detect_claim h c2.
Proof.
  intros (c & s1 & s2 & -> & -> & Hlower).
  unfold detect_claim, text_lower, source_uri, get.
  rewrite !lookup_insert_eq. simpl. rewrite Hlower.
  rewrite !(lookup_insert_ne _ "text") by done. reflexivity.
Qed.

(** The detector is blind to the case of ASCII letters: claims that
    differ only in the case of their text get the same flags. *)
Theorem detector_case_insensitive (h : heap)
    (claims1 claims2 : list (gmap string val)) :
  Forall2 same_but_case claims1 claims2 ->
  detect_absence_assertions h claims1 = detect_absence_assertions h claims2.
Proof.
  induction 1 as [|c1 c2 claims1 claims2 Hc _ IH]; [reflexivity|].
  cbn [detect_absence_assertions]. now rewrite (detect_claim_case h c1 c2 Hc), IH.
Qed.

Lemma detector_case_insensitive_witness :
  detect_absence_assertions ∅
    [ <["text" := VStr "NO AUDIT was published"]> ∅ ]
  = detect_absence_assertions ∅
      [ <["text" := VStr "no audit was published"]> ∅ ].
Proof.
  apply (detector_case_insensitive ∅
           [ <["text" := VStr "NO AUDIT was published"]> ∅ ]
           [ <["text" := VStr "no audit was published"]> ∅ ]).
  constructor; [|constructor]. eexists ∅, _, _. repeat split.
Defined.

(** ** The normaliser and the evidence entries *)

Lemma assign_claim_ids_contains (claims : list val) (i : nat) (h h' : heap)
    (u : unit) :
  assign_claim_ids i claims h = Ok (u, h') ->
  Forall (fun c => contains c "claim_id" h' = Ok (true, h')) claims.
Proof.
  revert i h. induction claims as [|c claims IH]; intros i h H; [constructor|].
  cbn [assign_claim_ids] in H. inv_run H. constructor; [|eapply IH; eauto].
  pose proof (assign_claim_ids_frame _ _ _ _ _ H) as Hframe.
  pose proof (contains_Ok _ _ _ _ _ S) as [-> _].
  destruct a; cbn [negb] in S0.
  - apply ret_Ok in S0 as [_ <-]. unfold contains in S |- *.
    destruct c as [| | |s|l]; try discriminate.
    + injection S as Hs. now rewrite Hs.
    + destruct (Hframe l) as [-> | (d & j & Hd & Hnone & _ & _)].
      * destruct (h !! l) as [[d|xs]|]; try discriminate;
          injection S as Hs; now rewrite Hs.
      * rewrite Hd in S. injection S as Hs.
        apply bool_decide_eq_true in Hs. rewrite Hnone in Hs.
        now destruct Hs.
  - apply setitem_Ok in S0 as (lc & dc & -> & Hlc & ->).
    unfold contains.
    destruct (Hframe lc) as [-> | (d & j & Hd & Hnone & _ & _)].
    + rewrite lookup_insert_eq. do 2 f_equal. apply bool_decide_eq_true.
      rewrite lookup_insert_eq. eauto.
    + rewrite lookup_insert_eq in Hd. injection Hd as <-.
      by rewrite lookup_insert_eq in Hnone.
Qed.

(** After the normaliser loop every claim answers yes to the test
    [claim_id in c], an identifier that a claim dict had before is still
    there, and a second pass of the loop, from any start index, changes
    nothing. *)
Theorem normaliser_postcondition (claims : list val) (i : nat) (h h' : heap)
    (u : unit) :
  assign_claim_ids i claims h = Ok (u, h') ->
  Forall (fun c => contains c "claim_id" h' = Ok (true, h')) claims
  /\ (forall l d v, h !! l = Some (ODict d) -> d !! "claim_id" = Some v ->
        h' !! l = Some (ODict d))
  /\ forall j, assign_claim_ids j claims h' = Ok ((), h').
Proof.
  intros H. pose proof (assign_claim_ids_contains _ _ _ _ _ H) as Hall.
  split; [exact Hall|]. split.
  - intros l d v Hd Hv.
    destruct (assign_claim_ids_frame _ _ _ _ _ H l)
      as [-> | (d0 & j & Hd0 & Hnone & _ & _)]; [exact Hd|].
    rewrite Hd in Hd0. injection Hd0 as <-. congruence.
  - clear H. induction Hall as [|c claims Hc _ IH]; intros j; [reflexivity|].
    cbn [assign_claim_ids].
    eapply bind_Ok_intro; [exact Hc|]. cbn [negb].
    eapply bind_Ok_intro; [reflexivity|]. apply IH.
Qed.

Lemma normaliser_postcondition_witness :
  assign_claim_ids 7 [VRef 2%positive] bare_claim_heap_after
  = Ok ((), bare_claim_heap_after).
Proof.
  apply (normaliser_postcondition [VRef 2%positive] 1 bare_claim_heap
           bare_claim_heap_after ()).
  vm_compute. reflexivity.
Defined.

Lemma mapM_as_dict_spec (claims : list val) (h h' : heap)
    (cs : list (gmap string val)) :
  mapM as_dict claims h = Ok (cs, h') ->
  Forall2 (fun claim c => exists l, claim = VRef l /\ h !! l = Some (ODict c))
    claims cs.
Proof.
  revert h' cs. induction claims as [|c claims IH]; intros h' cs H.
  - apply ret_Ok in H as [<- _]. constructor.
  - cbn [mapM] in H. inv_run H. apply ret_Ok in H as [<- _].
    apply as_dict_Ok in S as [-> Hc]. constructor; [exact Hc | eauto].
Qed.


Lemma build_evidence_entry_built (ids : list val) (now : string) (i : nat)
    (claim : val) (h h' : heap) (e : evidence_entry) :
  build_evidence_entry ids now i claim h = Ok (e, h') ->
  h ⊆ h' /\ entry_built ids h' claim e.
Proof.
  unfold build_evidence_entry. intros H. inv_run H.
  apply as_dict_Ok in S as [-> (lc & -> & Hlc)].
  apply get_heap_Ok in S0 as [-> ->].
  assert (h2 = h) as ->.
  { destruct (truthy h _); [now apply iter_Ok in S1|].
    now apply ret_Ok in S1 as [_ <-]. }
  apply alloc_Ok in S2 as [Hfresh ->].
  apply lift_Ok in S3 as [Hset <-].
  assert (Hh5 : h ⊆ h5
                /\ h5 !! a2
                   = Some (OList (a1 ++ if a3 then [VStr "ABSENCE_ASSERTION"] else []))).
  { destruct a3.
    - apply append_Ok in S4 as (xs & Hxs & ->).
      rewrite lookup_insert_eq in Hxs. injection Hxs as <-.
      rewrite insert_insert_eq. split; [now apply insert_subseteq|].
      now rewrite lookup_insert_eq.
    - apply ret_Ok in S4 as [_ <-]. split; [now apply insert_subseteq|].
      now rewrite lookup_insert_eq, app_nil_r. }
  destruct Hh5 as [Hh5 Hlf].
  apply get_heap_Ok in S5 as [-> ->].
  assert (Hsrc : h5 ⊆ h7
                 /\ (a6 = get a "source" VNone
                     \/ exists ls d,
                          a6 = VRef ls /\ h7 !! ls = Some (ODict d)
                          /\ d !! "type" = Some (VStr "MODEL_REASONING")
                          /\ d !! "uri" = Some VNone)).
  { destruct (truthy h5 _).
    - apply ret_Ok in S6 as [<- <-]. split; [reflexivity | now left].
    - inv_run S6. apply ret_Ok in S6 as [<- <-].
      match goal with
      | X : slice _ _ _ = Ok _ |- _ => apply slice_Ok in X; rename X into Hslice
      end.
      match goal with
      | X : alloc _ _ = Ok _ |- _ => apply alloc_Ok in X as [Hnew ->]
      end.
      split; [etrans; [exact Hslice | now apply insert_subseteq]|].
      right. eexists _, _. split; [reflexivity|].
      split; [apply lookup_insert_eq|]. split; reflexivity. }
  destruct Hsrc as [Hh7 Hsrc].
  apply ret_Ok in H as [<- <-].
  assert (Hsub : h ⊆ h7) by (by etrans).
  split; [exact Hsub|].
  exists lc, a, a2, a1, a3. cbn.
  split; [reflexivity|]. split; [eapply lookup_weaken; eauto|].
  split; [intros v Hv; unfold get; now rewrite Hv|].
  do 4 (split; [reflexivity|]). split; [reflexivity|].
  split; [exact Hset|]. split; [eapply lookup_weaken; eauto | exact Hsrc].
Qed.

Lemma entry_built_weaken (ids : list val) (h h' : heap) (claim : val)
    (e : evidence_entry) :
  h ⊆ h' -> entry_built ids h claim e -> entry_built ids h' claim e.
Proof.
  intros Hsub (l & c & lf & items & flagged & Hc & Hl & Hid & Ht & Hev & Hconf
               & Hn & Hf & Hset & Hlf & Hsrc).
  exists l, c, lf, items, flagged.
  split; [exact Hc|]. split; [eapply lookup_weaken; eauto|].
  do 6 (split; [assumption|]). split; [exact Hset|].
  split; [eapply lookup_weaken; eauto|].
  destruct Hsrc as [Hsrc | (ls & d & Hs & Hd & Hty & Huri)]; [now left|].
  right. exists ls, d. split; [exact Hs|].
  split; [eapply lookup_weaken; eauto | auto].
Qed.

Lemma build_evidence_entries_built (ids : list val) (now : string)
    (claims : list val) (i : nat) (h h' : heap) (es : list evidence_entry) :
  build_evidence_entries ids now i claims h = Ok (es, h') ->
  h ⊆ h' /\ Forall2 (entry_built ids h') claims es.
Proof.
  revert i h es. induction claims as [|c claims IH]; intros i h es H.
  - apply ret_Ok in H as [<- <-]. split; [done | constructor].
  - cbn [build_evidence_entries] in H. inv_run H.
    apply ret_Ok in H as [<- <-].
    apply build_evidence_entry_built in S as [Hsub Hnew].
    apply IH in S0 as [Hsub' Hall].
    split; [by etrans|]. constructor; [|exact Hall].
    eapply entry_built_weaken; eauto.
Qed.





(** ** The flags and the level of a run *)

Lemma detect_flag_type (h : heap) (claims : list (gmap string val))
    (flags : list absence_flag) :
  detect_absence_assertions h claims = Ok flags ->
  flag_type <$> flags = replicate (length flags) "ABSENCE_ASSERTION"%string.
Proof.
  revert flags. induction claims as [|c claims IH]; intros flags H.
  - now injection H as <-.
  - cbn [detect_absence_assertions] in H.
    destruct (detect_claim h c) as [o|] eqn:D; [|discriminate].
    destruct (detect_absence_assertions h claims) as [rest|]; [|discriminate].
    injection H as <-. rewrite fmap_app, length_app, replicate_add.
    rewrite (IH rest eq_refl). f_equal.
    destruct o as [f|]; [|reflexivity].
    apply detect_claim_spec in D as (s & _ & _ & Hfields).
    destruct (Hfields f eq_refl) as (_ & _ & Hty & _). simpl. now rewrite Hty.
Qed.

Lemma level_caps {flag : Type} (dims : dimensions) (e h r : Q)
    (hf : list flag) (a : bool) :
  let level := (determine_certification_level dims e h r hf a).1 in
  (hf <> [] -> level = HK_REJECTED)
  /\ (a = true \/ 0.60 < r -> (rank level <= 1)%nat).
Proof.
  unfold determine_certification_level.
  destruct (rejected_gate e h hf) eqn:R; [simpl; split; [done | lia]|].
  apply rejected_gate_false in R as (Hf & He & Hh).
  destruct (institutional_gate dims e h r hf a) eqn:I.
  { apply institutional_gate_true in I. simpl.
    split; [tauto|]. intros [->|Hr]; [intuition congruence | lra]. }
  destruct (pro_gate dims e h r a) eqn:P.
  { apply pro_gate_true in P. simpl.
    split; [tauto|]. intros [->|Hr]; [intuition congruence | lra]. }
  destruct (verified_gate dims e h r a) eqn:V.
  { apply verified_gate_true in V. simpl.
    split; [tauto|]. intros [->|Hr]; [intuition congruence | lra]. }
  destruct (reviewed_gate e h); simpl; (split; [tauto | lia]).
Qed.

(** The flag list of a completed run is one ABSENCE_ASSERTION for each
    absence flag, at most one per claim, followed by
    HALLUCINATION_DETECTED when the input has hallucination flags.  A run
    that reports HALLUCINATION_DETECTED is HK-REJECTED, and a run that
    reports ABSENCE_ASSERTION is HK-REVIEWED at best. *)
Theorem run_flags_and_level
    (json_loads : string -> result json) (json_dumps : ledger_entry -> string)
    (inp : input) (env : environment) (ledger : option string)
    (h h' : heap) (o : run_output) :
  run_pipeline json_loads json_dumps inp env ledger h = Ok (o, h') ->
  out_flags o
  = replicate (length (out_absence_flags o)) "ABSENCE_ASSERTION"%string
    ++ (if Py.truthy_list (inp_hallucination_flags inp)
        then ["HALLUCINATION_DETECTED"%string] else [])
  /\ (length (out_absence_flags o)
      <= length (evidence_entries (out_evidence o)))%nat
  /\ ("HALLUCINATION_DETECTED"%string ∈ out_flags o ->
      out_certification_level o = HK_REJECTED)
  /\ ("ABSENCE_ASSERTION"%string ∈ out_flags o ->
      (rank (out_certification_level o) <= rank HK_REVIEWED)%nat).
Proof.
  intros H. pose proof (run_pipeline_scores _ _ _ _ _ _ _ _ H)
    as (_ & _ & _ & Hlevel & _).
  unfold run_pipeline in H. inv_run H.
  apply ret_Ok in H as [<- ->]. cbn in Hlevel |- *.
  match goal with
  | X : lift (detect_absence_assertions _ ?x) _ = Ok (?y, _) |- _ =>
      rename x into dicts; rename y into flags;
      apply lift_Ok in X as [Hdetect _]
  end.
  match goal with
  | X : mapM as_dict _ _ = Ok _ |- _ =>
      pose proof (mapM_as_dict_spec _ _ _ _ X) as Hcs
  end.
  match goal with
  | X : build_evidence_json _ _ _ _ _ _ = Ok _ |- _ =>
      unfold build_evidence_json in X; inv_run X;
      apply ret_Ok in X as [<- _]
  end.
  match goal with
  | X : build_evidence_entries _ _ _ _ _ = Ok _ |- _ =>
      apply build_evidence_entries_built in X as [_ Hbuilt]
  end.
  cbn.
  assert (Hflags : all_flags flags (inp_hallucination_flags inp)
                   = replicate (length flags) "ABSENCE_ASSERTION"%string
                     ++ (if Py.truthy_list (inp_hallucination_flags inp)
                         then ["HALLUCINATION_DETECTED"%string] else [])).
  { unfold all_flags. now rewrite (detect_flag_type _ _ _ Hdetect). }
  rewrite Hflags. split; [reflexivity|].
  pose proof (level_caps (inp_dimensions inp) q
                (compute_hci (inp_dimensions inp) q)
                (compute_inferred_ratio dicts) (inp_hallucination_flags inp)
                (Py.truthy_list flags)) as [Hrej Hcap].
  rewrite <- Hlevel in Hrej, Hcap. cbn in Hrej, Hcap.
  split; [|split].
  - rewrite <- (Forall2_length _ _ _ Hbuilt), (Forall2_length _ _ _ Hcs).
    eapply detect_length; eauto.
  - intros Hin. apply Hrej. apply elem_of_app in Hin as [Hin|Hin].
    + apply elem_of_replicate in Hin as [? _]. discriminate.
    + destruct (inp_hallucination_flags inp); [|discriminate].
      now apply elem_of_nil in Hin.
  - intros Hin. apply Hcap. left. apply elem_of_app in Hin as [Hin|Hin].
    + apply elem_of_replicate in Hin as [_ Hlen].
      destruct flags; [done | reflexivity].
    + destruct (Py.truthy_list (inp_hallucination_flags inp)).
      * apply list_elem_of_singleton in Hin. discriminate.
      * now apply elem_of_nil in Hin.
Qed.

Lemma run_flags_and_level_witness :
  exists o h',
    run_pipeline no_loads no_dumps one_claim_input sample_env None one_claim_heap
    = Ok (o, h')
    /\ out_flags o = ["ABSENCE_ASSERTION"%string]
    /\ (rank (out_certification_level o) <= rank HK_REVIEWED)%nat.
Proof.
  eexists _, _. split; [vm_compute; reflexivity|].
  destruct (run_flags_and_level no_loads no_dumps one_claim_input sample_env
              None one_claim_heap _ _ ltac:(vm_compute; reflexivity))
    as (Hflags & _ & _ & Hcap).
  split; [reflexivity|]. apply Hcap. rewrite Hflags. left.
Defined.

(** A run on an input without claims: the inferred ratio is 1, so that
    the effective EVID is the raw score capped at 6.5 and the level is
    HK-REVIEWED at best; there are no absence flags and no evidence
    entries, and the run leaves every loaded object as it was. *)
Theorem run_without_claims
    (json_loads : string -> result json) (json_dumps : ledger_entry -> string)
    (inp : input) (env : environment) (ledger : option string)
    (h h' : heap) (o : run_output) (lc : loc) :
  inp_claims inp = VRef lc -> h !! lc = Some (OList []) ->
  run_pipeline json_loads json_dumps inp env ledger h = Ok (o, h') ->
  h' = h
  /\ out_inferred_ratio o == 1
  /\ out_evid_effective o == Qmin (score (EVID (inp_dimensions inp))) 6.5
  /\ out_absence_flags o = []
  /\ evidence_entries (out_evidence o) = []
  /\ (rank (out_certification_level o) <= rank HK_REVIEWED)%nat.
Proof.
  intros Hclaims Hlc H.
  pose proof (run_pipeline_scores _ _ _ _ _ _ _ _ H)
    as (Hraw & Hceil & _ & Hlevel & _).
  assert (Hrun : h' = h /\ out_inferred_ratio o = compute_inferred_ratio []
                 /\ out_absence_flags o = []
                 /\ evidence_entries (out_evidence o) = []).
  { unfold run_pipeline in H. inv_run H.
    apply ret_Ok in H as [<- ->]. cbn.
    match goal with
    | X : as_list _ _ = Ok _ |- _ =>
        unfold as_list in X; rewrite Hclaims, Hlc in X; injection X as <- <-
    end.
    match goal with
    | X : assign_claim_ids _ [] _ = Ok _ |- _ => apply ret_Ok in X as [_ <-]
    end.
    match goal with
    | X : mapM as_dict [] _ = Ok _ |- _ => apply ret_Ok in X as [<- <-]
    end.
    match goal with
    | X : get_heap _ = Ok _ |- _ => apply get_heap_Ok in X as [-> ->]
    end.
    match goal with
    | X : lift (detect_absence_assertions _ []) _ = Ok _ |- _ =>
        apply lift_Ok in X as [Hd <-]; cbn in Hd; injection Hd as <-
    end.
    match goal with
    | X : lift (make_set _) _ = Ok _ |- _ => apply lift_Ok in X as [_ <-]
    end.
    match goal with
    | X : build_evidence_json _ [] _ _ _ _ = Ok _ |- _ =>
        unfold build_evidence_json in X; inv_run X;
        apply ret_Ok in X as [<- ->]
    end.
    match goal with
    | X : build_evidence_entries _ _ _ [] _ = Ok _ |- _ =>
        apply ret_Ok in X as [<- <-]
    end.
    match goal with
    | X : lift (title_of _) _ = Ok _ |- _ => apply lift_Ok in X as [_ <-]
    end.
    auto. }
  destruct Hrun as (Hh & Hratio & Habs & Hentries).
  assert (Hone : out_inferred_ratio o == 1) by (now rewrite Hratio).
  split; [exact Hh|]. split; [exact Hone|].
  split; [|split; [exact Habs|split; [exact Hentries|]]].
  - rewrite Hraw in Hceil. unfold apply_evid_ceiling in Hceil.
    assert (Hgt : Py.gt (out_inferred_ratio o) 0.75 = true)
      by (apply gt_true; lra).
    rewrite Hgt in Hceil. injection Hceil as -> _. now rewrite min_Qmin.
  - pose proof (level_caps (inp_dimensions inp) (out_evid_effective o)
                  (out_hci o) (out_inferred_ratio o)
                  (inp_hallucination_flags inp)
                  (Py.truthy_list (out_absence_flags o))) as [_ Hcap].
    rewrite <- Hlevel in Hcap. apply Hcap. right. lra.
Qed.

Lemma run_without_claims_witness :
  exists o,
    run_pipeline no_loads no_dumps (no_claims_input all_tens) sample_env None
      no_claims_heap
    = Ok (o, no_claims_heap)
    /\ out_inferred_ratio o == 1
    /\ (rank (out_certification_level o) <= rank HK_REVIEWED)%nat.
Proof.
  eexists. split; [vm_compute; reflexivity|].
  destruct (run_without_claims no_loads no_dumps (no_claims_input all_tens)
              sample_env None no_claims_heap _ _ 1%positive eq_refl eq_refl
              ltac:(vm_compute; reflexivity))
    as (_ & Hratio & _ & _ & _ & Hcap).
  split; [exact Hratio | exact Hcap].
Defined.

(** ** The levels of a summary *)

Lemma shaped_level (r : run_record) :
  shaped r ->
  rec_certification_level r ∈ known_levels
  /\ (rec_certification_level r = "ERROR"%string <-> rec_hci r = None).
Proof.
  unfold known_levels.
  intros [(E & Hhci & _) | ((c & E) & [x Hhci] & _)]; rewrite E.
  - split; [set_solver | tauto].
  - split; [destruct c; set_solver|]. rewrite Hhci.
    split; [destruct c; discriminate | discriminate].
Qed.

Lemma level_tally (rs : list run_record) :
  Forall shaped rs ->
  sum_list ((fun level =>
               length (filter (fun r => rec_certification_level r = level) rs))
            <$> known_levels)
  = length rs.
Proof.
  induction 1 as [|r rs Hr _ IH]; [reflexivity|].
  apply shaped_level in Hr as [Hin _].
  unfold known_levels in *. cbn [fmap list_fmap sum_list] in *.
  unfold id in *. rewrite !filter_cons. cbv beta.
  rewrite !elem_of_cons, elem_of_nil in Hin.
  destruct Hin as [E|[E|[E|[E|[E|[E|[]]]]]]]; rewrite E;
    repeat first [ rewrite decide_True by reflexivity
                 | rewrite decide_False by discriminate ];
    cbn [length]; lia.
Qed.

Section BatchLevels.

Variable json_loads : string -> result json.
Variable json_dumps : ledger_entry -> string.
Variable str_exc : exn -> string.

(** The records of a summary are of two kinds, those of the runs that
    raised, with level ERROR and no number, and those of the runs that
    completed, with one of the five certification levels and the three
    numbers.  So the six levels of the console distribution account for
    every run: no other level is counted, the six counts add up to the
    number of runs, and the count of ERROR is the number of runs without
    an HCI. *)
Theorem batch_levels_known (files : list batch_file)
    (ledger ledger' : option string) (s : summary) :
  run_batch json_loads json_dumps str_exc files ledger = (Done s, ledger') ->
  Forall shaped (runs s)
  /\ (forall level, level ∉ known_levels ->
        default 0%nat (counts_by_level s !! level) = 0%nat)
  /\ sum_list ((fun level => default 0%nat (counts_by_level s !! level))
               <$> known_levels)
     = total_runs s
  /\ default 0%nat (counts_by_level s !! "ERROR"%string)
     = length (filter (fun r => rec_hci r = None) (runs s)).
Proof.
  intros H.
  assert (Hne : files <> []) by (intros ->; discriminate H).
  destruct (run_batch_eq json_loads json_dumps str_exc files ledger Hne)
    as (new & entries & counts & E & _ & Hall & Hcount & _).
  cbv zeta in E. rewrite E in H. injection H as <- _.
  cbn [runs counts_by_level total_runs].
  split; [exact Hall|]. split; [|split].
  - intros level Hlevel. rewrite Hcount. clear E Hcount.
    induction Hall as [|r rs Hr _ IH]; [reflexivity|].
    apply shaped_level in Hr as [Hin _].
    rewrite filter_cons, decide_False; [exact IH | congruence].
  - rewrite <- (level_tally new Hall). f_equal.
    apply list_fmap_ext. intros _ level _. apply Hcount.
  - rewrite Hcount. clear E Hcount.
    induction Hall as [|r rs Hr _ IH]; [reflexivity|].
    apply shaped_level in Hr as [_ Hiff]. rewrite !filter_cons.
    destruct (decide (rec_certification_level r = "ERROR"%string)) as [D|D].
    + rewrite decide_True by tauto. cbn [length]. now rewrite IH.
    + rewrite decide_False by tauto. exact IH.
Qed.

End BatchLevels.

Lemma batch_levels_known_witness :
  exists s ledger',
    run_batch sample_loads no_dumps sample_str_exc sample_batch None
    = (Done s, ledger')
    /\ default 0%nat (counts_by_level s !! "ERROR"%string)
       = length (filter (fun r => rec_hci r = None) (runs s)).
Proof.
  eexists _, _. split; [vm_compute; reflexivity|].
  eapply (batch_levels_known sample_loads no_dumps sample_str_exc sample_batch
            None _ _ ltac:(vm_compute; reflexivity)).
Defined.

(** ** The score record and the audit record *)

Lemma cert_meta_label (c : cert_level) :
  exists m, CERT_META !! label c = Some m /\ meta_label m = label c.
Proof. destruct c; eexists; split; vm_compute; reflexivity. Qed.

Lemma cert_extra_cases {flag : Type} (dims : dimensions) (e h r : Q)
    (hf : list flag) (a : bool) (level : cert_level)
    (extra : gmap string bool) :
  determine_certification_level dims e h r hf a = (level, extra) ->
  (level = HK_INSTITUTIONAL
   /\ extra = {[ "institutional_requires_two_reviews" := true ]})
  \/ (level = HK_PRO /\ extra = {[ "pro_requires_second_review" := true ]})
  \/ ((level = HK_VERIFIED \/ level = HK_REVIEWED \/ level = HK_REJECTED)
      /\ extra = ∅).
Proof.
  unfold determine_certification_level.
  repeat match goal with
         | |- context [if ?b then _ else _] => destruct b
         end; intros [= <- <-]; tauto.
Qed.

(** The update of the score record with the obligation fields of the
    classifier overwrites none of its thirteen fields: the record holds
    the level, the scores and the flags it was built from, and beside
    them the second-review field exactly for HK-PRO and the two-reviews
    field exactly for HK-INSTITUTIONAL. *)
Theorem sci_record_fields {flag : Type} (report_id now : string)
    (dims : dimensions) (evid_raw evid_effective hci inferred_ratio : Q)
    (ceiling_note : option string) (hallucination_flags : list val)
    (absence_flags : list absence_flag) (hf : list flag) (a : bool)
    (level : cert_level) (extra : gmap string bool) :
  determine_certification_level dims evid_effective hci inferred_ratio hf a
  = (level, extra) ->
  let sci :=
    build_sci_score_json report_id dims evid_raw evid_effective hci level extra
      inferred_ratio ceiling_note hallucination_flags absence_flags now in
  sci !! "report_id" = Some (FStr report_id)
  /\ sci !! "generated_at" = Some (FStr now)
  /\ sci !! "pipeline_version" = Some (FStr "HKP-1.1")
  /\ sci !! "evid_raw" = Some (FNum evid_raw)
  /\ sci !! "evid_effective" = Some (FNum evid_effective)
  /\ sci !! "hci" = Some (FNum hci)
  /\ sci !! "inferred_ratio" = Some (FNum inferred_ratio)
  /\ sci !! "certification_level" = Some (FStr (label level))
  /\ sci !! "evid_ceiling_applied" = Some (note_field ceiling_note)
  /\ sci !! "flags"
     = Some (FList (FStr <$> all_flags absence_flags hallucination_flags))
  /\ sci !! "hallucination_flags" = Some (FList (FVal <$> hallucination_flags))
  /\ sci !! "absence_assertion_flags"
     = Some (FList (flag_field <$> absence_flags))
  /\ (exists d, sci !! "dimensions" = Some (FDict d)
                /\ d !! "EVID" = Some (dimension_field (EVID dims))
                /\ d !! "SPEC" = Some (dimension_field (SPEC dims)))
  /\ sci !! "pro_requires_second_review"
     = match level with HK_PRO => Some (FBool true) | _ => None end
  /\ sci !! "institutional_requires_two_reviews"
     = match level with HK_INSTITUTIONAL => Some (FBool true) | _ => None end
  /\ size sci = (13 + size extra)%nat.
Proof.
  intros Hlevel sci. subst sci.
  apply cert_extra_cases in Hlevel
    as [[-> ->] | [[-> ->] | [[-> | [-> | ->]] ->]]];
    (repeat split; try (eexists; repeat split); reflexivity).
Qed.

Lemma sci_record_fields_witness :
  build_sci_score_json "HK-2026-AAAAAA" all_tens 10.0 10.0 10.0
    HK_INSTITUTIONAL {[ "institutional_requires_two_reviews" := true ]}
    0.0 None [] [] "2026-01-01T00:00:00Z"
  !! "certification_level"
  = Some (FStr "HK-INSTITUTIONAL").
Proof.
  apply (sci_record_fields (flag := val) "HK-2026-AAAAAA" "2026-01-01T00:00:00Z"
           all_tens 10.0 10.0 10.0 0.0 None [] [] [] false HK_INSTITUTIONAL
           {[ "institutional_requires_two_reviews" := true ]}).
  vm_compute. reflexivity.
Defined.

Lemma result_bind_Ok {A B} (m : result A) (f : A -> result B) (b : B) :
  m ≫= f = Ok b -> exists a, m = Ok a /\ f a = Ok b.
Proof. destruct m as [a|e]; [eauto | discriminate]. Qed.

Lemma cert_meta_keys (s : string) (m : cert_meta) :
  CERT_META !! s = Some m -> exists c, s = label c /\ meta_label m = s.
Proof.
  unfold CERT_META. cbn [list_to_map foldr uncurry fst snd].
  intros H.
  repeat match type of H with
         | <[?k := _]> _ !! s = Some _ =>
             destruct (decide (k = s)) as [<-|Hne];
             [rewrite lookup_insert_eq in H; injection H as <-|
              rewrite lookup_insert_ne in H by exact Hne; clear Hne]
         end;
    try rewrite lookup_empty in H; try discriminate.
  - now exists HK_INSTITUTIONAL.
  - now exists HK_PRO.
  - now exists HK_VERIFIED.
  - now exists HK_REVIEWED.
  - now exists HK_REJECTED.
Qed.

Section AuditFacts.

Variable str_field : field -> string.

(** The audit builder needs a score record whose level is one of the five
    keys of [CERT_META], and raises [KeyError] on a record without level.
    When it returns, the audit record has the level of the score record,
    a badge with that level as label, and the two obligation fields
    exactly as the score record has them. *)
Theorem audit_record_of_sci (audit_id report_id now : string) (h : heap)
    (sci audit : gmap string field) (artifact_hashes : gmap string string)
    (evid_raw evid_effective inferred_ratio : Q) :
  (sci !! "certification_level" = None ->
   build_audit_json str_field audit_id h report_id sci artifact_hashes
     evid_raw evid_effective inferred_ratio now = Raise KeyError)
  /\ (build_audit_json str_field audit_id h report_id sci artifact_hashes
        evid_raw evid_effective inferred_ratio now = Ok audit ->
      exists c hci,
        sci !! "certification_level" = Some (FStr (label c))
        /\ sci !! "hci" = Some hci
        /\ audit !! "certification_level" = Some (FStr (label c))
        /\ audit !! "audit_id" = Some (FStr audit_id)
        /\ audit !! "human_reviewer" = Some (FVal VNone)
        /\ (exists badge,
              audit !! "badge" = Some (FDict badge)
              /\ badge !! "label" = Some (FStr (label c))
              /\ badge !! "hci_display"
                 = Some (FStr (str_field hci ++ "/10")))
        /\ audit !! "pro_requires_second_review"
           = sci !! "pro_requires_second_review"
        /\ audit !! "institutional_requires_two_reviews"
           = sci !! "institutional_requires_two_reviews").
Proof.
  unfold build_audit_json. split.
  - intros Hnone.
    assert (item sci "certification_level" = Raise KeyError) as ->
      by (unfold item; now rewrite Hnone).
    reflexivity.
  - intros H.
    repeat match type of H with
           | _ ≫= _ = Ok _ =>
               let x := fresh "x" in
               let Hx := fresh "Hx" in
               apply result_bind_Ok in H as (x & Hx & H)
           end.
    injection H as <-.
    unfold item in Hx, Hx0.
    destruct (sci !! "certification_level") as [cert|] eqn:Hcert; [|discriminate].
    injection Hx as <-.
    destruct (sci !! "hci") as [hci|] eqn:Hhci; [|discriminate].
    injection Hx0 as <-.
    unfold cert_meta_of in Hx2.
    destruct cert as [[| | |s|]| |]; try discriminate.
    destruct (CERT_META !! s) as [m|] eqn:Hm; [|discriminate].
    injection Hx2 as <-.
    apply cert_meta_keys in Hm as (c & -> & Hlabel).
    exists c, hci. split; [reflexivity|]. split; [reflexivity|].
    unfold carry.
    destruct (sci !! "pro_requires_second_review") as [p|] eqn:Hp;
      destruct (sci !! "institutional_requires_two_reviews") as [i|] eqn:Hi;
      rewrite ?lookup_insert_eq, ?lookup_insert_ne by done;
      rewrite ?lookup_insert_eq, ?lookup_insert_ne by done;
      (repeat split; try (eexists; repeat split); try rewrite Hlabel;
       try reflexivity).
Qed.

End AuditFacts.

Lemma audit_record_of_sci_witness :
  build_audit_json sample_str_field "AUD-2026-AAAAAAAA" ∅ "HK-2026-AAAAAA" ∅ ∅
    10.0 10.0 0.0 "2026-01-01T00:00:00Z"
  = Raise KeyError.
Proof.
  apply (proj1 (audit_record_of_sci sample_str_field "AUD-2026-AAAAAAAA"
                  "HK-2026-AAAAAA" "2026-01-01T00:00:00Z" ∅ ∅ ∅ ∅
                  10.0 10.0 0.0)).
  reflexivity.
Defined.

(** The audit record of a completed run is always built: the level that
    the classifier returned is a key of [CERT_META], and the score record
    has every field the builder reads.  The audit record bears the audit
    identifier of the ledger entry, the level, the flags and the
    obligation fields of the run; its summary gives the raw EVID score
    beside the HCI, which is computed from the effective one. *)
Theorem audit_record_of_run
    (json_loads : string -> result json) (json_dumps : ledger_entry -> string)
    (str_field : field -> string)
    (inp : input) (env : environment) (ledger : option string)
    (h h' : heap) (o : run_output)
    (objects : heap) (hashes : gmap string string) :
  run_pipeline json_loads json_dumps inp env ledger h = Ok (o, h') ->
  exists audit,
    audit_of_run str_field inp env o objects hashes = Ok audit
    /\ audit !! "audit_id" = Some (FStr (ledger_audit_id (out_ledger_entry o)))
    /\ audit !! "report_id" = Some (FStr (ledger_report_id (out_ledger_entry o)))
    /\ audit !! "certification_level"
       = Some (FStr (label (out_certification_level o)))
    /\ audit !! "flags" = Some (FList (FStr <$> out_flags o))
    /\ audit !! "evid_raw" = Some (FNum (out_evid_raw o))
    /\ audit !! "evid_effective" = Some (FNum (out_evid_effective o))
    /\ (exists summary,
          audit !! "sci_summary" = Some (FDict summary)
          /\ summary !! "EVID" = Some (FNum (score (EVID (inp_dimensions inp))))
          /\ summary !! "HCI"
             = Some (FNum (compute_hci (inp_dimensions inp)
                             (out_evid_effective o))))
    /\ (exists badge,
          audit !! "badge" = Some (FDict badge)
          /\ badge !! "label" = Some (FStr (label (out_certification_level o))))
    /\ audit !! "pro_requires_second_review"
       = match out_certification_level o with
         | HK_PRO => Some (FBool true)
         | _ => None
         end
    /\ audit !! "institutional_requires_two_reviews"
       = match out_certification_level o with
         | HK_INSTITUTIONAL => Some (FBool true)
         | _ => None
         end.
Proof.
  intros H.
  pose proof (run_pipeline_scores _ _ _ _ _ _ _ _ H)
    as (_ & _ & Hhci & Hlevel & Hledger).
  assert (Hout : out_flags o
                 = all_flags (out_absence_flags o) (inp_hallucination_flags inp)
                 /\ out_report_id o = env_report_id env).
  { unfold run_pipeline in H. inv_run H. now apply ret_Ok in H as [<- _]. }
  destruct Hout as [Hflags Hrid].
  assert (Hentry : ledger_audit_id (out_ledger_entry o) = env_audit_id env
                   /\ ledger_report_id (out_ledger_entry o) = out_report_id o).
  { rewrite Hrid. unfold ledger_stage in Hledger. now injection Hledger as -> _. }
  destruct Hentry as [-> ->].
  rewrite Hflags, <- Hhci. unfold audit_of_run, sci_of_run.
  symmetry in Hlevel. apply cert_extra_cases in Hlevel.
  destruct o as [rid level extra hci raw eff note ratio flags aflags ev entry text].
  cbn [out_report_id out_certification_level out_cert_extra out_hci out_evid_raw
       out_evid_effective out_ceiling_note out_inferred_ratio out_absence_flags]
    in *.
  unfold build_audit_json.
  generalize (FStr <$> hashes). intros digests.
  destruct Hlevel as [[-> ->] | [[-> ->] | [[-> | [-> | ->]] ->]]];
    (eexists; split; [reflexivity|];
     repeat split; try (eexists; repeat split); reflexivity).
Qed.


Lemma audit_record_of_run_witness :
  exists o h',
    run_pipeline no_loads no_dumps one_claim_input sample_env None one_claim_heap
    = Ok (o, h')
    /\ exists audit,
         audit_of_run sample_str_field one_claim_input sample_env o ∅ ∅
         = Ok audit
         /\ audit !! "certification_level"
            = Some (FStr (label (out_certification_level o))).
Proof.
  eexists _, _. split; [vm_compute; reflexivity|].
  destruct (audit_record_of_run no_loads no_dumps sample_str_field
              one_claim_input sample_env None one_claim_heap _ _ ∅ ∅
              ltac:(vm_compute; reflexivity))
    as (audit & Haudit & _ & _ & Hlevel & _).
  exists audit. split; [exact Haudit | exact Hlevel].
Defined.
